(** * Product detector (content.js, popup script): model and properties

    The repository is a browser extension.  [content.js] is injected into
    the active tab; it scans the page for price-shaped elements, climbs
    from each of them to a bounded-size ancestor that also holds an image
    and a title, and returns the detected products.  The popup script
    turns the returned array into a status line and a text report.

    [content.js] holds two revisions of the detector.  The development
    follows the later one (the one with the named constants
    [MIN_CONTAINER_WIDTH] ... [MAX_TEXT_ELEMENT_LENGTH]).

    Modelling decisions.
    - A JavaScript string is the list of its UTF-16 code units.
    - The page is a finite tree of elements.  A DOM reference is modelled
      by the position of the node in that tree (the child indices from the
      node up to the root element), so that equality of references is
      JavaScript's reference identity.
    - In modules [Dom] and [Detector] every element is an HTML element:
      it has [innerText] and the [offset...] properties, and the document
      has a head and a body, so no statement of the pass throws.  Module
      [Strict] lifts this: it records which elements are SVG or MathML
      elements and whether [document.head] and [document.body] exist,
      and gives the pass with the exceptions it lets escape.
    - Layout values are read from a snapshot of the page: highlighting
      does not feed back into layout during a pass.
    - Regular expressions are interpreted by a backtracking matcher over
      their syntax trees, in the style of the ECMAScript specification. *)

From Stdlib Require Import ZArith NArith String Ascii.
From stdpp Require Import base option list gmap sets pretty.

Local Open Scope Z_scope.

(** ** JavaScript strings *)

Module JS.

Definition jsstring := list N.

(** An ASCII literal as a JavaScript string. *)
Definition lit (s : string) : jsstring :=
  List.map N_of_ascii (list_ascii_of_string s).

(** [WhiteSpace] and [LineTerminator] code points: what [\s] matches and
    what [String.prototype.trim] removes. *)
Definition isSpace (c : N) : bool :=
  ((9 <=? c) && (c <=? 13) || (c =? 32) || (c =? 160) || (c =? 5760)
   || (8192 <=? c) && (c <=? 8202) || (c =? 8232) || (c =? 8233)
   || (c =? 8239) || (c =? 8287) || (c =? 12288) || (c =? 65279))%N.

Definition isDigit (c : N) : bool := ((48 <=? c) && (c <=? 57))%N.

Definition isUpper (c : N) : bool := ((65 <=? c) && (c <=? 90))%N.
Definition isLower (c : N) : bool := ((97 <=? c) && (c <=? 122))%N.

(** [\w]: without the [u] flag the word characters are the ASCII letters,
    the digits and the underscore, also under the [i] flag. *)
Definition isWordChar (c : N) : bool :=
  isUpper c || isLower c || isDigit c || (c =? 95)%N.

Fixpoint dropWhile (f : N -> bool) (s : jsstring) : jsstring :=
  match s with
  | c :: s' => if f c then dropWhile f s' else s
  | [] => []
  end.

Definition trimStart (s : jsstring) : jsstring := dropWhile isSpace s.
Definition trimEnd (s : jsstring) : jsstring := reverse (dropWhile isSpace (reverse s)).
Definition trim (s : jsstring) : jsstring := trimEnd (trimStart s).

Fixpoint startsWith (s p : jsstring) : bool :=
  match p, s with
  | [], _ => true
  | _ :: _, [] => false
  | a :: p', b :: s' => (a =? b)%N && startsWith s' p'
  end.

Fixpoint includes (s p : jsstring) : bool :=
  if startsWith s p then true
  else match s with
       | [] => false
       | _ :: s' => includes s' p
       end.

(** Cutting a string at every unit that satisfies [f]: never empty. *)
Fixpoint splitBy (f : N -> bool) (s : jsstring) : list jsstring :=
  match s with
  | [] => [[]]
  | c :: s' =>
      if f c then [] :: splitBy f s'
      else match splitBy f s' with
           | [] => [[c]]
           | w :: ws => (c :: w) :: ws
           end
  end.

(** [s.split(sep)] for a one-character separator. *)
Definition split (sep : N) (s : jsstring) : list jsstring :=
  splitBy (N.eqb sep) s.

(** ASCII part of [toLowerCase].  The detector only searches the lowered
    string for the words "price", "reviewrating" and "ratingvalue".  The
    non-ASCII characters whose lower case holds an ASCII letter are
    U+0130 (an "i" followed by U+0307) and U+212A (a "k"); neither can
    take part in an occurrence of those words, so the ASCII mapping
    decides the searches. *)
Definition toLowerCase (s : jsstring) : jsstring :=
  List.map (fun c => if isUpper c then (c + 32)%N else c) s.

Definition eqb (a b : jsstring) : bool := bool_decide (a = b).

(** Truthiness of a value that is a string, [null] or [undefined]. *)
Definition truthy (v : option jsstring) : bool :=
  match v with
  | Some (_ :: _) => true
  | _ => false
  end.

(** [a || b] on such values. *)
Definition orValue (a b : option jsstring) : option jsstring :=
  if truthy a then a else b.

End JS.

(** ** Regular expressions *)

Module Regex.

Import JS.

(** Members of a character class. *)
Inductive cls :=
| One (c : N)
| Digit
| Space.

(** The syntax the detector's patterns use.  [Repeat lo hi r] is the
    greedy quantifier [r{lo,hi}], with [hi = None] for "unbounded". *)
Inductive regex :=
| Empty
| Class (cs : list cls)
| Seq (r1 r2 : regex)
| Alt (r1 r2 : regex)
| Repeat (lo : nat) (hi : option nat) (r : regex)
| Bol
| Eol
| WordBoundary.

(** Canonicalisation under the [i] flag (no [u] flag): the upper case of
    the code unit, except that a non-ASCII unit never maps into ASCII.
    The patterns below contain ASCII letters and caseless currency signs
    only, so the ASCII mapping is all that can make two units agree. *)
Definition canonicalize (c : N) : N := if isLower c then (c - 32)%N else c.

Definition clsMatches (ignoreCase : bool) (m : cls) (c : N) : bool :=
  match m with
  | One p => if ignoreCase then (canonicalize p =? canonicalize c)%N else (p =? c)%N
  | Digit => isDigit c
  | Space => isSpace c
  end.

(** A position in the input: the unit before it, if any, and the rest. *)
Definition continuation := option N -> jsstring -> bool.

Definition atWordBoundary (prev : option N) (s : jsstring) : bool :=
  let a := match prev with Some c => isWordChar c | None => false end in
  let b := match s with c :: _ => isWordChar c | [] => false end in
  xorb a b.

(** The quantifier: at most [budget] further iterations, of which [lo]
    are compulsory.  An optional iteration that consumes nothing is
    refused, as in the specification's RepeatMatcher. *)
Fixpoint repeatMatcher (body : option N -> jsstring -> continuation -> bool)
    (lo budget : nat) (prev : option N) (s : jsstring) (k : continuation) : bool :=
  match budget with
  | O => if lo is O then k prev s else false
  | S budget' =>
      if body prev s (fun prev' s' =>
           if lo is O then
             if (length s' =? length s)%nat then false
             else repeatMatcher body O budget' prev' s' k
           else repeatMatcher body (Nat.pred lo) budget' prev' s' k)
      then true
      else if lo is O then k prev s else false
  end.

Fixpoint matcher (ignoreCase : bool) (r : regex)
    (prev : option N) (s : jsstring) (k : continuation) : bool :=
  match r with
  | Empty => k prev s
  | Class cs =>
      match s with
      | c :: s' => if existsb (fun m => clsMatches ignoreCase m c) cs then k (Some c) s' else false
      | [] => false
      end
  | Seq r1 r2 =>
      matcher ignoreCase r1 prev s (fun prev' s' => matcher ignoreCase r2 prev' s' k)
  | Alt r1 r2 =>
      if matcher ignoreCase r1 prev s k then true else matcher ignoreCase r2 prev s k
  | Repeat lo hi r =>
      let budget := match hi with Some h => h | None => (lo + length s)%nat end in
      repeatMatcher (matcher ignoreCase r) lo budget prev s k
  | Bol => if prev is None then k prev s else false
  | Eol => if s is [] then k prev s else false
  | WordBoundary => if atWordBoundary prev s then k prev s else false
  end.

(** [re.test(s)] for a pattern without the [g] flag: some start position
    admits a match. *)
Fixpoint searchFrom (ignoreCase : bool) (r : regex) (prev : option N) (s : jsstring) : bool :=
  if matcher ignoreCase r prev s (fun _ _ => true) then true
  else match s with
       | [] => false
       | c :: s' => searchFrom ignoreCase r (Some c) s'
       end.

Record RegExp := { pattern : regex; ignoreCase : bool }.

Definition test (re : RegExp) (s : jsstring) : bool :=
  searchFrom (ignoreCase re) (pattern re) None s.

(** Pattern-building shorthands. *)
Definition chr (c : N) : regex := Class [One c].
Definition seqs (rs : list regex) : regex := foldr Seq Empty rs.
Fixpoint alts (rs : list regex) : regex :=
  match rs with
  | [] => Class []
  | [r] => r
  | r :: rs' => Alt r (alts rs')
  end.
Definition word (s : string) : regex := seqs (List.map chr (lit s)).
Definition opt (r : regex) : regex := Repeat 0 (Some 1%nat) r.
Definition star (r : regex) : regex := Repeat 0 None r.
Definition plus (r : regex) : regex := Repeat 1 None r.
Definition digit : regex := Class [Digit].
Definition space : regex := Class [Space].

End Regex.

(** ** The pattern library of content.js *)

Module Patterns.

Import JS Regex.

(** [[\$€£¥₹₽₩₺]] *)
Definition currencySymbol : regex :=
  Class [One 36; One 8364; One 163; One 165; One 8377; One 8381; One 8361; One 8378]%N.

(** [(?:USD|EUR|...|VND)] *)
Definition currencyCode : regex :=
  alts (List.map word
    ["USD"; "EUR"; "GBP"; "JPY"; "AUD"; "CAD"; "CHF"; "CNY"; "SEK"; "NZD";
     "KRW"; "INR"; "RUB"; "ZAR"; "SGD"; "TRY"; "TL"; "BRL"; "MXN"; "IDR";
     "DKK"; "PLN"; "THB"; "HUF"; "CZK"; "ILS"; "MYR"; "PHP"; "RON"; "ARS";
     "CLP"; "COP"; "EGP"; "HKD"; "IQD"; "JOD"; "KWD"; "LBP"; "MAD"; "MUR";
     "NGN"; "NOK"; "OMR"; "QAR"; "SAR"; "VND"]%string).

(** [\d{1,3}(?:[.,\s]\d{3})*(?:[.,]\d{1,2})?] *)
Definition magnitude : regex :=
  seqs [ Repeat 1 (Some 3%nat) digit;
         star (seqs [Class [One 46; One 44; Space]%N; Repeat 3 (Some 3%nat) digit]);
         opt (seqs [Class [One 46; One 44]%N; Repeat 1 (Some 2%nat) digit]) ].

(** The two alternatives of [priceRegex]: currency first, searched
    anywhere and closed by [\b]; or magnitude first, anchored at both
    ends of the text. *)
Definition pricePrefixForm : regex :=
  seqs [ Alt currencySymbol (Seq currencyCode (star space));
         star space; magnitude; WordBoundary ].

Definition priceSuffixForm : regex :=
  seqs [ Bol; magnitude; star space; Alt currencySymbol currencyCode; Eol ].

Definition priceRegex : RegExp :=
  {| pattern := Alt pricePrefixForm priceSuffixForm; ignoreCase := true |}.

(** [\b(?:star(?:s)?|rating|...|beoordeling)\b|^\d(?:\.\d+)?\/\d$] *)
Definition reviewKeyword : regex :=
  alts [ Seq (word "star") (opt (word "s"));
         word "rating";
         Seq (word "review") (opt (word "s"));
         Seq (word "out of ") (plus digit);
         Seq (word "sur ") (plus digit);
         seqs [word "from "; plus digit; opt (Seq (chr 46) (plus digit))];
         word "customer reviews";
         word "overall score";
         word "average rating";
         word "wertung";
         word "beoordeling" ].

Definition reviewRatio : regex :=
  seqs [ Bol; digit; opt (Seq (chr 46) (plus digit)); chr 47; digit; Eol ].

Definition reviewPattern : RegExp :=
  {| pattern := Alt (seqs [WordBoundary; reviewKeyword; WordBoundary]) reviewRatio;
     ignoreCase := true |}.

(** [/^\d+$/] *)
Definition digitsOnly : RegExp :=
  {| pattern := seqs [Bol; plus digit; Eol]; ignoreCase := false |}.

End Patterns.

(** ** The page: elements, references and selectors *)

Module Dom.

Import JS.

(** What the detector reads of one HTML element.  [src], [srcset],
    [naturalWidth], [naturalHeight] and [loading] are the properties of
    an image element; [loading] is [None] where the browser does not
    define the property.  An element of another namespace has no
    [innerText] and no [offset...] property: module [Strict] keeps track
    of those elements and of what reading them does. *)
Record ElemData := {
  localName : jsstring;
  attributes : gmap jsstring jsstring;
  innerText : jsstring;
  offsetParentIsNull : bool;
  offsetWidth : Z;
  offsetHeight : Z;
  src : jsstring;
  srcset : jsstring;
  naturalWidth : Z;
  naturalHeight : Z;
  loading : option jsstring
}.

#[warnings="-register-all"]
Inductive Element := Elem (d : ElemData) (cs : list Element).

Definition data (e : Element) : ElemData := let 'Elem d _ := e in d.
Definition children (e : Element) : list Element := let 'Elem _ cs := e in cs.

(** A reference to a node: its child index, then its parent's, and so on
    up to the root element, whose reference is the empty list. *)
Definition NodeRef := list nat.

Definition parentElement (ref : NodeRef) : option NodeRef :=
  match ref with
  | [] => None
  | _ :: parent => Some parent
  end.

Fixpoint get (root : Element) (ref : NodeRef) : option Element :=
  match ref with
  | [] => Some root
  | i :: parent =>
      match get root parent with
      | Some e => children e !! i
      | None => None
      end
  end.

(** [a.contains(b)]: [b] is [a] or lies below it. *)
Definition contains (a b : NodeRef) : bool := bool_decide (a `suffix_of` b).

Definition hasAttribute (d : ElemData) (name : string) : bool :=
  bool_decide (is_Some (attributes d !! lit name)).

Definition getAttribute (d : ElemData) (name : string) : option jsstring :=
  attributes d !! lit name.

(** The descendants of the element [e] placed at [ref], in document
    order, each with its reference. *)
Fixpoint descendants (ref : NodeRef) (e : Element) : list (NodeRef * ElemData) :=
  let 'Elem _ cs := e in
  (fix walk (i : nat) (cs : list Element) : list (NodeRef * ElemData) :=
     match cs with
     | [] => []
     | c :: cs' => ((i :: ref, data c) :: descendants (i :: ref) c) ++ walk (S i) cs'
     end) 0%nat cs.

(** Selectors: a comma-separated list of compound selectors, each a
    conjunction of simple ones.  Element names and attribute names are
    those of an HTML document (stored in lower case); class names are
    compared as written. *)
Inductive simpleSelector :=
| Tag (name : string)
| HasAttr (name : string)
| AttrEq (name value : string)
| AttrContains (name value : string)
| Class (name : string).

Definition compoundSelector := list simpleSelector.
Definition selectorList := list compoundSelector.

Definition isAsciiWhitespace (c : N) : bool :=
  ((c =? 9) || (c =? 10) || (c =? 12) || (c =? 13) || (c =? 32))%N.

(** The tokens of a [class] attribute. *)
Definition tokens (s : jsstring) : list jsstring :=
  List.filter (fun w => negb (eqb w [])) (splitBy isAsciiWhitespace s).

Definition matchesSimple (d : ElemData) (s : simpleSelector) : bool :=
  match s with
  | Tag name => eqb (localName d) (lit name)
  | HasAttr name => hasAttribute d name
  | AttrEq name value =>
      match getAttribute d name with
      | Some v => eqb v (lit value)
      | None => false
      end
  | AttrContains name value =>
      match getAttribute d name with
      | Some v => includes v (lit value)
      | None => false
      end
  | Class name =>
      match getAttribute d "class" with
      | Some v => existsb (eqb (lit name)) (tokens v)
      | None => false
      end
  end.

(** [el.matches(selectors)] *)
Definition matches (sel : selectorList) (d : ElemData) : bool :=
  existsb (forallb (matchesSimple d)) sel.

(** [ctx.querySelectorAll(selectors)] on an element: the matching
    descendants of [ctx], in document order. *)
Definition querySelectorAll (root : Element) (ctx : NodeRef) (sel : selectorList)
    : list (NodeRef * ElemData) :=
  match get root ctx with
  | Some e => List.filter (fun x => matches sel x.2) (descendants ctx e)
  | None => []
  end.

(** [document.querySelectorAll(selectors)]: the root element takes part. *)
Definition documentQuerySelectorAll (root : Element) (sel : selectorList)
    : list (NodeRef * ElemData) :=
  List.filter (fun x => matches sel x.2) (([], data root) :: descendants [] root).

(** [el.closest(selectors)]: the nearest of [el] and its ancestors that
    matches. *)
Fixpoint closest (root : Element) (sel : selectorList) (ref : NodeRef) : option NodeRef :=
  match get root ref with
  | Some e =>
      if matches sel (data e) then Some ref
      else match ref with
           | [] => None
           | _ :: parent => closest root sel parent
           end
  | None => None
  end.

End Dom.
(** ** The detector of content.js *)

Module Detector.

Import JS Regex Patterns Dom.

Definition MIN_CONTAINER_WIDTH : Z := 100.
Definition MAX_CONTAINER_WIDTH : Z := 1000.
Definition MIN_CONTAINER_HEIGHT : Z := 100.
Definition MAX_CONTAINER_HEIGHT : Z := 1500.
Definition MIN_IMAGE_SIZE_PX : Z := 60.
Definition MIN_NATURAL_IMAGE_SIZE_PX : Z := 50.
Definition MAX_TITLE_LENGTH : nat := 200.
Definition MIN_TITLE_LENGTH : nat := 5.
Definition MAX_TEXT_ELEMENT_LENGTH : nat := 50.

Definition reviewContainerSelectors : selectorList :=
  [ [AttrEq "itemprop" "review"]; [AttrContains "class" "review-section"];
    [AttrContains "id" "reviews"]; [AttrContains "class" "rating-summary"];
    [AttrContains "class" "customer-reviews"]; [AttrContains "aria-label" "rating"];
    [AttrContains "data-testid" "review"]; [AttrContains "data-qa" "review"];
    [Class "reviews"]; [Class "product-reviews"]; [Class "rating-stars"];
    [Class "star-rating"]; [Class "score"] ].

Definition priceSelectors : selectorList :=
  [ [Tag "span"]; [Tag "div"]; [Tag "p"]; [Tag "strong"]; [Tag "b"]; [Tag "ins"];
    [Tag "a"]; [AttrEq "itemprop" "price"]; [HasAttr "data-price"];
    [HasAttr "data-saleprice"] ].

Definition titleSelectors : selectorList :=
  [ [Tag "h1"]; [Tag "h2"]; [Tag "h3"]; [Tag "h4"]; [Tag "h5"]; [Tag "h6"];
    [Tag "a"; HasAttr "href"]; [AttrEq "role" "heading"]; [AttrEq "itemprop" "name"];
    [Class "product-title"]; [Class "item-name"] ].

Definition imgSelectors : selectorList := [ [Tag "img"] ].

(** *** 1. The price candidates *)

Definition itempropIncludes (d : ElemData) (needle : string) : bool :=
  match getAttribute d "itemprop" with
  | Some v => includes (toLowerCase v) (lit needle)
  | None => false
  end.

Definition hasSemanticPriceAttr (d : ElemData) : bool :=
  hasAttribute d "data-price" || hasAttribute d "data-saleprice"
  || itempropIncludes d "price".

Definition isReviewElement (d : ElemData) : bool :=
  itempropIncludes d "reviewrating" || itempropIncludes d "ratingvalue"
  || hasAttribute d "data-rating".

(** The last three steps of the filter: the review pattern, then the
    price pattern, then the semantic price attribute. *)
Definition classifyText (text : jsstring) (d : ElemData) : bool :=
  if test reviewPattern text then false
  else if test priceRegex text then true
  else hasSemanticPriceAttr d.

(** The callback of [.filter] on the scanned elements. *)
Definition isPotentialPrice (root : Element) (el : NodeRef * ElemData) : bool :=
  let d := el.2 in
  if offsetParentIsNull d || (offsetWidth d =? 0) || (offsetHeight d =? 0) then false
  else
    let text := trim (innerText d) in
    if (length text =? 0)%nat || (MAX_TEXT_ELEMENT_LENGTH <? length text)%nat then false
    else if closest root reviewContainerSelectors el.1 is Some _ then false
    else if isReviewElement d then false
    else classifyText text d.

Definition potentialPriceElements (root : Element) : list (NodeRef * ElemData) :=
  List.filter (isPotentialPrice root) (documentQuerySelectorAll root priceSelectors).

(** *** 4. The image of a container *)

Definition nonEmpty (s : jsstring) : bool := if s is [] then false else true.

Definition datasetSrc (d : ElemData) : option jsstring := getAttribute d "data-src".
Definition datasetLazyload (d : ElemData) : option jsstring := getAttribute d "data-lazyload".

Definition isProductImage (img : ElemData) : bool :=
  negb (offsetParentIsNull img)
  && (MIN_IMAGE_SIZE_PX <? offsetWidth img) && (MIN_IMAGE_SIZE_PX <? offsetHeight img)
  && ( nonEmpty (src img)
         && negb (startsWith (src img) (lit "data:image/gif;base64"))
         && negb (includes (src img) (lit "blank.gif"))
       || truthy (datasetSrc img) || truthy (datasetLazyload img)
       || truthy (getAttribute img "data-src")
       || nonEmpty (srcset img)
       || (MIN_NATURAL_IMAGE_SIZE_PX <? naturalWidth img)
            && (MIN_NATURAL_IMAGE_SIZE_PX <? naturalHeight img)
            && negb (truthy (loading img)) ).

Definition findImage (root : Element) (currentElement : NodeRef) : option (NodeRef * ElemData) :=
  List.find (fun img => isProductImage img.2) (querySelectorAll root currentElement imgSelectors).

(** *** 5. The title of a container *)

Definition isValidTitle (priceElement : NodeRef) (el : NodeRef * ElemData) : bool :=
  let titleText := trim (innerText el.2) in
  nonEmpty titleText
  && (MIN_TITLE_LENGTH <=? length titleText)%nat
  && (length titleText <=? MAX_TITLE_LENGTH)%nat
  && negb (contains el.1 priceElement)
  && negb (test priceRegex titleText)
  && negb (test digitsOnly titleText)
  && negb (test reviewPattern titleText)
  && negb (offsetParentIsNull el.2)
  && (0 <? offsetWidth el.2) && (0 <? offsetHeight el.2).

(** The [for ... of potentialTitles] loop with its [break]. *)
Fixpoint scanTitles (priceElement : NodeRef) (potentialTitles : list (NodeRef * ElemData))
    : option (NodeRef * ElemData) :=
  match potentialTitles with
  | [] => None
  | el :: rest =>
      if isValidTitle priceElement el then Some el
      else scanTitles priceElement rest
  end.

Definition findTitle (root : Element) (priceElement currentElement : NodeRef)
    : option (NodeRef * ElemData) :=
  scanTitles priceElement (querySelectorAll root currentElement titleSelectors).

(** *** 3. The climb *)

Record Found := {
  productContainer : NodeRef;
  image : NodeRef * ElemData;
  title : NodeRef * ElemData
}.

Definition outOfBounds (d : ElemData) : bool :=
  (offsetWidth d <? MIN_CONTAINER_WIDTH) || (offsetHeight d <? MIN_CONTAINER_HEIGHT)
  || (MAX_CONTAINER_WIDTH <? offsetWidth d) || (MAX_CONTAINER_HEIGHT <? offsetHeight d).

(** The [for] loop over the ancestors: [steps] is the number of
    iterations still allowed ([10 - i]), [currentElement] the node the
    previous iteration stopped at. *)
Fixpoint climb (root : Element) (processedContainers : gset NodeRef)
    (priceElement : NodeRef) (steps : nat) (currentElement : NodeRef) : option Found :=
  match steps with
  | O => None
  | S steps' =>
      match parentElement currentElement with
      | None => None
      | Some currentElement' =>
          let continue := climb root processedContainers priceElement steps' currentElement' in
          match get root currentElement' with
          | None => None
          | Some e =>
              if bool_decide (currentElement' ∈ processedContainers) then continue
              else if outOfBounds (data e) then continue
              else
                match findImage root currentElement' with
                | None => continue
                | Some img =>
                    match findTitle root priceElement currentElement' with
                    | None => continue
                    | Some t =>
                        Some {| productContainer := currentElement'; image := img; title := t |}
                    end
                end
          end
      end
  end.

Definition CLIMB_LIMIT : nat := 10.

(** *** 7. The record *)

Definition lastEntry (srcset : jsstring) : jsstring :=
  let srcsetParts := List.map (fun s => split 32 (trim s)) (split 44 srcset) in
  List.hd [] (List.last srcsetParts []).

(** [!u], and a string test on [u] that is only reached when [u] is a
    non-empty string. *)
Definition falsy (u : option jsstring) : bool := negb (truthy u).

Definition on (u : option jsstring) (f : jsstring -> bool) : bool :=
  match u with
  | Some v => f v
  | None => false
  end.

(** The three assignments to [actualImageUrl], in order. *)
Definition afterLazyAttributes (img : ElemData) (u : option jsstring) : option jsstring :=
  if falsy u || on u (fun v => startsWith v (lit "data:image/gif;base64"))
     || on u (fun v => includes v (lit "blank.gif"))
  then orValue (orValue (datasetSrc img) (datasetLazyload img)) (getAttribute img "data-src")
  else u.

Definition afterSourceSet (img : ElemData) (u : option jsstring) : option jsstring :=
  if (falsy u || on u (fun v => startsWith v (lit "data:image/gif")))
     && nonEmpty (srcset img)
  then Some (lastEntry (srcset img))
  else u.

Definition afterFallback (u : option jsstring) : option jsstring :=
  if falsy u || on u (fun v => startsWith v (lit "data:"))
  then Some (lit "N/A")
  else u.

Definition actualImageUrl (img : ElemData) : jsstring :=
  default [] (afterFallback (afterSourceSet img (afterLazyAttributes img (Some (src img))))).

(** The object pushed on [results]. *)
Module Product.
Record t := {
  title : jsstring;
  price : jsstring;
  imageUrl : jsstring
}.
End Product.

Definition ProductRecord := Product.t.

(** One detection: the record pushed on [results], with the nodes it was
    built from (the container that is claimed and the three nodes that
    receive the highlight classes). *)
Record Detection := {
  d_container : NodeRef;
  d_image : NodeRef;
  d_title : NodeRef;
  d_price : NodeRef;
  d_record : ProductRecord
}.

Record PassState := {
  detections : list Detection;
  processedContainers : gset NodeRef
}.

Definition results (st : PassState) : list ProductRecord :=
  List.map d_record (detections st).

Definition initialState : PassState :=
  {| detections := []; processedContainers := ∅ |}.

(** What a successful climb records for the candidate. *)
Definition detectionOf (f : Found) (priceElement : NodeRef * ElemData) : Detection :=
  {| d_container := productContainer f;
     d_image := (image f).1;
     d_title := (title f).1;
     d_price := priceElement.1;
     d_record :=
       {| Product.title := trim (innerText (title f).2);
          Product.price := trim (innerText priceElement.2);
          Product.imageUrl := actualImageUrl (image f).2 |} |}.

(** The body of [potentialPriceElements.forEach]. *)
Definition processPrice (root : Element) (st : PassState) (priceElement : NodeRef * ElemData)
    : PassState :=
  match climb root (processedContainers st) priceElement.1 CLIMB_LIMIT priceElement.1 with
  | Some f =>
      {| detections := detections st ++ [detectionOf f priceElement];
         processedContainers := {[ productContainer f ]} ∪ processedContainers st |}
  | None => st
  end.

Definition runCandidates (root : Element) (st : PassState)
    (candidates : list (NodeRef * ElemData)) : PassState :=
  fold_left (processPrice root) candidates st.

Inductive NotificationType := Info | Error.

Record Notification := {
  message : jsstring;
  type : NotificationType
}.

(** [String(n)] for a length. *)
Definition showNat (n : nat) : jsstring := lit (pretty n).

Definition notify (found : list ProductRecord) : Notification :=
  if (0 <? length found)%nat
  then {| message := showNat (length found) ++ lit " product(s) detected and highlighted!";
          type := Info |}
  else {| message := lit "No products detected on this page."; type := Error |}.

Record PassOutcome := {
  finalState : PassState;
  notification : Notification;
  returned : list ProductRecord
}.

(** The whole injected function on a document of HTML elements with a
    head and a body, where no statement of it throws ([Strict.detect] is
    the function with its exceptions). *)
Definition detect (root : Element) : PassOutcome :=
  let st := runCandidates root initialState (potentialPriceElements root) in
  {| finalState := st; notification := notify (results st); returned := results st |}.

End Detector.

(** ** The earlier revision of the detector

    The first half of content.js is an older revision of the same
    function.  It differs from the later one in five places, modelled
    here: the price pattern knows neither the lira sign nor "TL"; the
    review-container test is a loop over the node and five ancestors; the
    image test; the title length bounds; and the URL resolution. *)

Module Earlier.

Import JS Regex Patterns Dom Detector.

Definition currencySymbol : regex :=
  Regex.Class [One 36; One 8364; One 163; One 165; One 8377; One 8381; One 8361]%N.

Definition currencyCode : regex :=
  alts (List.map word
    ["USD"; "EUR"; "GBP"; "JPY"; "AUD"; "CAD"; "CHF"; "CNY"; "SEK"; "NZD";
     "KRW"; "INR"; "RUB"; "ZAR"; "SGD"; "TRY"; "BRL"; "MXN"; "IDR";
     "DKK"; "PLN"; "THB"; "HUF"; "CZK"; "ILS"; "MYR"; "PHP"; "RON"; "ARS";
     "CLP"; "COP"; "EGP"; "HKD"; "IQD"; "JOD"; "KWD"; "LBP"; "MAD"; "MUR";
     "NGN"; "NOK"; "OMR"; "QAR"; "SAR"; "VND"]%string).

Definition priceRegex : RegExp :=
  {| pattern :=
       Alt (seqs [ Alt currencySymbol (Seq currencyCode (star space));
                   star space; magnitude; WordBoundary ])
           (seqs [ Bol; magnitude; star space; Alt currencySymbol currencyCode; Eol ]);
     ignoreCase := true |}.

(** [for (let i = 0; i < 6 && current; i++)] with [current.matches]. *)
Fixpoint isInReviewContainer (root : Element) (steps : nat) (current : option NodeRef)
    : bool :=
  match steps, current with
  | S steps', Some ref =>
      match get root ref with
      | Some e =>
          if matches reviewContainerSelectors (data e) then true
          else isInReviewContainer root steps' (parentElement ref)
      | None => false
      end
  | _, _ => false
  end.

Definition isPotentialPrice (root : Element) (el : NodeRef * ElemData) : bool :=
  let d := el.2 in
  if offsetParentIsNull d || (offsetWidth d =? 0) || (offsetHeight d =? 0) then false
  else
    let text := trim (innerText d) in
    if (length text =? 0)%nat || (50 <? length text)%nat then false
    else if isInReviewContainer root 6 (Some el.1) then false
    else if isReviewElement d then false
    else if test reviewPattern text then false
    else if test priceRegex text then true
    else hasSemanticPriceAttr d.

Definition isProductImage (img : ElemData) : bool :=
  negb (offsetParentIsNull img)
  && (60 <? offsetWidth img) && (60 <? offsetHeight img)
  && ( (50 <? naturalWidth img) && (50 <? naturalHeight img)
       || on (loading img) (eqb (lit "lazy"))
       || truthy (datasetSrc img)
       || nonEmpty (srcset img) ).

Definition isValidTitle (priceElement : NodeRef) (el : NodeRef * ElemData) : bool :=
  let titleText := trim (innerText el.2) in
  nonEmpty titleText
  && (5 <? length titleText)%nat
  && (length titleText <? 200)%nat
  && negb (contains el.1 priceElement)
  && negb (test priceRegex titleText)
  && negb (test digitsOnly titleText)
  && negb (test reviewPattern titleText)
  && negb (offsetParentIsNull el.2)
  && (0 <? offsetWidth el.2) && (0 <? offsetHeight el.2).

Definition actualImageUrl (img : ElemData) : jsstring :=
  let u := Some (src img) in
  let u :=
    if falsy u || on u (fun v => includes v (lit "data:image/gif;base64"))
       || on u (fun v => includes v (lit "blank.gif"))
    then orValue (orValue (datasetSrc img) (datasetLazyload img)) (getAttribute img "data-src")
    else u in
  let u :=
    if (falsy u || on u (fun v => includes v (lit "data:image/gif")))
       && nonEmpty (srcset img)
    then Some (lastEntry (srcset img))
    else u in
  let u := if falsy u then Some (lit "N/A") else u in
  default [] u.

End Earlier.

(** ** The popup script *)

Module Popup.

Import JS Detector.

(** One entry of [injectionResults]: [frame.result] may be missing. *)
Record Frame := { result : option (list ProductRecord) }.

Record Outcome := {
  statusMessage : jsstring;
  download : option jsstring
}.

Definition newline : jsstring := [10%N].

Definition reportEntry (product : ProductRecord) : jsstring :=
  lit "Title: " ++ Product.title product ++ newline
  ++ lit "Image: " ++ Product.imageUrl product ++ newline
  ++ lit "Price: " ++ Product.price product ++ newline ++ newline.

Definition allProducts (injectionResults : list Frame) : list ProductRecord :=
  List.flat_map (fun frame => default [] (result frame)) injectionResults.

(** The click handler after [executeScript] has settled: [inl msg] is a
    rejected injection, caught by the handler; [lastError] is what the
    download callback finds in [chrome.runtime.lastError]. *)
Definition onInjection (injection : jsstring + list Frame) (lastError : option jsstring)
    : Outcome :=
  match injection with
  | inl msg => {| statusMessage := lit "Error: " ++ msg; download := None |}
  | inr injectionResults =>
      let products := allProducts injectionResults in
      if (length products =? 0)%nat
      then {| statusMessage := lit "No products were detected."; download := None |}
      else
        let fileContent := List.flat_map reportEntry products in
        {| statusMessage :=
             match lastError with
             | Some msg => lit "Download failed: " ++ msg
             | None => lit "Downloaded " ++ showNat (length products) ++ lit " product(s)!"
             end;
           download := Some fileContent |}
  end.

End Popup.

(** ** The behaviour the specification describes *)

Module Described.

Import JS Regex Patterns Dom Detector.

(** The ancestors of a node, nearest first. *)
Fixpoint ancestors (ref : NodeRef) : list NodeRef :=
  match ref with
  | [] => []
  | _ :: parent => parent :: ancestors parent
  end.

(** An ancestor qualifies for a candidate when it is unclaimed, within
    the size bounds, and both an image and a title resolve in its
    subtree. *)
Definition qualifies (root : Element) (claimed : gset NodeRef) (priceElement : NodeRef)
    (ancestor : NodeRef) : option Found :=
  match get root ancestor with
  | Some e =>
      if bool_decide (ancestor ∈ claimed) then None
      else if outOfBounds (data e) then None
      else
        match findImage root ancestor, findTitle root priceElement ancestor with
        | Some img, Some t =>
            Some {| productContainer := ancestor; image := img; title := t |}
        | _, _ => None
        end
  | None => None
  end.


(** What makes a node an acceptable title for a candidate. *)
Definition QualifiesAsTitle (priceElement : NodeRef) (el : NodeRef * ElemData) : Prop :=
  let text := trim (innerText el.2) in
  (5 ≤ length text ≤ 200)%nat
  ∧ ¬ el.1 `suffix_of` priceElement
  ∧ test priceRegex text = false
  ∧ test digitsOnly text = false
  ∧ test reviewPattern text = false
  ∧ offsetParentIsNull el.2 = false
  ∧ 0 < offsetWidth el.2 ∧ 0 < offsetHeight el.2.

(** URL resolution as a precedence list.  The three sources: *)
Definition directSource (img : ElemData) : option jsstring :=
  if nonEmpty (src img)
     && negb (startsWith (src img) (lit "data:image/gif;base64"))
     && negb (includes (src img) (lit "blank.gif"))
  then Some (src img) else None.

Definition firstTruthy (vs : list (option jsstring)) : option jsstring :=
  List.find truthy vs ≫= id.

Definition lazySource (img : ElemData) : option jsstring :=
  firstTruthy [datasetSrc img; datasetLazyload img; getAttribute img "data-src"].

Definition sourceSetEntry (img : ElemData) : option jsstring :=
  if nonEmpty (srcset img) then Some (lastEntry (srcset img)) else None.

Definition orElse (a b : option jsstring) : option jsstring :=
  match a with
  | Some _ => a
  | None => b
  end.

Definition sentinelIfUnusable (u : option jsstring) : jsstring :=
  match u with
  | Some v => if negb (nonEmpty v) || startsWith v (lit "data:") then lit "N/A" else v
  | None => lit "N/A"
  end.

(** As the specification words it: each source is consulted only when the
    ones before it gave nothing.  A known placeholder is what the code
    tests for in the direct source. *)
Definition describedImageUrl (img : ElemData) : jsstring :=
  sentinelIfUnusable
    (orElse (directSource img) (orElse (lazySource img) (sourceSetEntry img))).

(** With the source set also replacing a gif data URI obtained from the
    direct source or the lazy-load attributes. *)
Definition isGifDataUri (u : option jsstring) : bool :=
  on u (fun v => startsWith v (lit "data:image/gif")).

Definition precedenceImageUrl (img : ElemData) : jsstring :=
  let first := orElse (directSource img) (lazySource img) in
  sentinelIfUnusable
    (match first, sourceSetEntry img with
     | None, entry => entry
     | Some v, Some entry => if isGifDataUri first then Some entry else first
     | Some v, None => first
     end).

End Described.

(** ** Sample pages *)

Module Samples.

Import JS Dom Detector.

Definition attrsOf (l : list (string * string)) : gmap jsstring jsstring :=
  list_to_map (List.map (fun kv => (lit kv.1, lit kv.2)) l).

Definition box (name : string) (attrs : list (string * string)) (text : jsstring)
    (w h : Z) (cs : list Element) : Element :=
  Elem {| localName := lit name; attributes := attrsOf attrs; innerText := text;
          offsetParentIsNull := false; offsetWidth := w; offsetHeight := h;
          src := []; srcset := []; naturalWidth := 0; naturalHeight := 0;
          loading := None |} cs.

Definition picture (attrs : list (string * string)) (source sourceSet : string)
    (w h : Z) : Element :=
  Elem {| localName := lit "img"; attributes := attrsOf attrs; innerText := [];
          offsetParentIsNull := false; offsetWidth := w; offsetHeight := h;
          src := lit source; srcset := lit sourceSet;
          naturalWidth := w; naturalHeight := h;
          loading := Some (lit "auto") |} [].

Definition euro : jsstring := [8364%N].
Definition pound : jsstring := [163%N].

(** A shop page: a grid with two product cards, a review block and a
    card that is too narrow. *)
Definition mousePicture : Element := picture [] "https://shop.example/a.jpg" "" 120 120.

Definition mousePrice : Element :=
  box "span" [("class", "amount")] (lit " 19,99 " ++ euro ++ lit " ") 60 20 [].

Definition mouseLink : Element :=
  box "a" [("href", "/p/mouse")] (lit "Wireless Mouse 19,99 " ++ euro) 280 150
    [ mousePicture; mousePrice ].

Definition mouseHeading : Element := box "h2" [] (lit "Wireless Mouse") 280 24 [].

Definition mouseCard : Element :=
  box "div" [("class", "card")]
    (lit "Wireless Mouse 19,99 " ++ euro
     ++ lit " Wireless Mouse Ergonomic mouse with silent buttons")
    300 200
    [ mouseLink; mouseHeading;
      box "p" [] (lit "Ergonomic 2.4 GHz mouse with three silent buttons and a long battery life")
        280 20 [] ].

Definition keyboardPicture : Element :=
  picture [("data-src", "https://shop.example/b.jpg")]
    "data:image/gif;base64,R0lGODlhAQABAAAAACw=" "" 120 120.

Definition keyboardHeading : Element := box "h3" [] (lit "USB Keyboard") 280 24 [].

Definition keyboardPrice : Element :=
  box "span" [("class", "amount")] (lit "$49.00") 60 20 [].

Definition keyboardOldPrice : Element :=
  box "span" [("class", "amount old")] (lit "$59.00") 60 20 [].

Definition keyboardCard : Element :=
  box "div" [("class", "card")]
    (lit "USB Keyboard $49.00 $59.00 Full-size keyboard with a numeric pad and media keys")
    300 200
    [ keyboardPicture; keyboardHeading; keyboardPrice; keyboardOldPrice;
      box "p" [] (lit "Full-size keyboard with a numeric pad and dedicated media keys")
        280 20 [] ].

Definition reviewPrice : Element :=
  box "span" [("class", "amount")] (lit "$5.00") 60 20 [].

Definition reviewBlock : Element :=
  box "div" [("class", "product-reviews")]
    (lit "Top rated gadget $5.00 More than two hundred buyers recommend this one")
    300 200
    [ picture [] "https://shop.example/c.jpg" "" 120 120;
      box "h4" [] (lit "Top rated gadget") 280 24 [];
      reviewPrice ].

Definition slimPrice : Element :=
  box "span" [("class", "amount")] (pound ++ lit "7.50") 60 20 [].

Definition slimCard : Element :=
  box "div" [("class", "card slim")]
    (lit "Phone Case " ++ pound
     ++ lit "7.50 Shock-absorbing case in four colours, fits most models")
    90 400
    [ picture [] "https://shop.example/d.jpg" "" 70 70;
      box "h3" [] (lit "Phone Case") 80 24 [];
      slimPrice ].

Definition shopText : jsstring :=
  lit "Our shop: mice, keyboards, cases and many more accessories for your desk".

Definition shop : Element :=
  box "html" [] shopText 1200 3000
    [ box "body" [] shopText 1200 3000
        [ box "div" [("id", "grid")] shopText 900 700
            [ mouseCard; keyboardCard; reviewBlock; slimCard ] ] ].

(** Where the nodes of the shop page are. *)
Definition gridRef : NodeRef := [0; 0]%nat.
Definition mouseCardRef : NodeRef := [0; 0; 0]%nat.
Definition mouseLinkRef : NodeRef := [0; 0; 0; 0]%nat.
Definition mousePictureRef : NodeRef := [0; 0; 0; 0; 0]%nat.
Definition mousePriceRef : NodeRef := [1; 0; 0; 0; 0]%nat.
Definition mouseHeadingRef : NodeRef := [1; 0; 0; 0]%nat.
Definition keyboardOldPriceRef : NodeRef := [3; 1; 0; 0]%nat.
Definition reviewBlockRef : NodeRef := [2; 0; 0]%nat.
Definition reviewPriceRef : NodeRef := [2; 2; 0; 0]%nat.

(** The three detections of a pass over the shop page.  The old price of
    the keyboard finds its card claimed and ends up with the grid. *)
Definition mouseDetection : Detection :=
  {| d_container := mouseCardRef; d_image := mousePictureRef;
     d_title := mouseHeadingRef; d_price := mousePriceRef;
     d_record := {| Product.title := lit "Wireless Mouse";
                    Product.price := lit "19,99 " ++ euro;
                    Product.imageUrl := lit "https://shop.example/a.jpg" |} |}.

Definition oldPriceFound : Found :=
  {| productContainer := gridRef;
     image := (mousePictureRef, data mousePicture);
     title := (mouseLinkRef, data mouseLink) |}.

Definition oldPriceDetection : Detection :=
  detectionOf oldPriceFound (keyboardOldPriceRef, data keyboardOldPrice).


(** A page without any price. *)
Definition blog : Element :=
  box "html" [] (lit "Hello world A first post") 1200 800
    [ box "body" [] (lit "Hello world A first post") 1200 800
        [ box "h1" [] (lit "Hello world") 600 40 [];
          box "p" [] (lit "A first post") 600 20 [] ] ].

(** An image whose lazy-load attribute holds a gif placeholder and whose
    source set names the real files. *)
Definition lazyPicture : ElemData :=
  data (picture [("data-src", "data:image/gif;base64,R0lGODlhAQABAAAAACw=")] ""
          "https://shop.example/s.jpg 1x, https://shop.example/l.jpg 2x" 120 120).

(** An image whose source is an inline picture that is not a gif. *)
Definition inlinePicture : ElemData :=
  data (picture [] "data:image/png;base64,iVBORw0KGgo=" "" 120 120).

(** A heading with a five-letter text. *)
Definition shortHeading : NodeRef * ElemData :=
  ([5; 0]%nat, data (box "h2" [] (lit "Mouse") 280 24 [])).

(** A price seven levels below a review block. *)
Fixpoint wrapped (n : nat) (e : Element) : Element :=
  match n with
  | O => e
  | S n' => box "div" [] shopText 300 200 [wrapped n' e]
  end.

Definition deepReview : Element :=
  box "html" [] shopText 1200 3000
    [ box "section" [("class", "reviews")] shopText 900 700 [wrapped 5 reviewPrice] ].

Definition deepPriceRef : NodeRef := [0; 0; 0; 0; 0; 0; 0]%nat.

(** Price-shaped and rating-shaped texts. *)
Definition priceTexts : list jsstring :=
  [ lit "$12.99"; lit "19,99 " ++ euro; lit "1.234,56 EUR" ].

Definition ratingTexts : list jsstring :=
  [ lit "4.5 out of 5 stars"; lit "4.5/5" ].

Definition label (text : jsstring) : ElemData :=
  data (box "span" [] text 60 20 []).

End Samples.

(** ** The pass on a page that is not all HTML

    The detector reads [innerText] and the [offset...] properties, which
    only HTML elements have, and it appends to [document.head] and
    [document.body].  This layer keeps track of the elements of other
    namespaces (SVG, MathML) and of the exceptions the injected function
    lets escape; on a page of HTML elements with a head it is the
    detector above. *)

Module Strict.

Import JS Regex Patterns Dom Detector.

Inductive Thrown := TypeError.

(** A page: its element tree and the references of the elements that are
    not HTML elements but SVG or MathML elements.  For those,
    [innerText], [offsetParent], [offsetWidth] and [offsetHeight] are
    [undefined], whatever the tree records for them; [classList],
    [style], [closest], [querySelectorAll] and the attribute methods
    they have like any element. *)
Record Page := {
  tree : Element;
  foreign : gset NodeRef
}.

Definition isForeign (page : Page) (ref : NodeRef) : bool :=
  bool_decide (ref ∈ foreign page).

(** The first child of the document element, counted from [i], that is
    an HTML element with one of the given names. *)
Fixpoint firstNamed (page : Page) (names : list string) (i : nat) (cs : list Element)
    : option NodeRef :=
  match cs with
  | [] => None
  | c :: cs' =>
      if negb (isForeign page [i]) && existsb (fun n => eqb (localName (data c)) (lit n)) names
      then Some [i]
      else firstNamed page names (S i) cs'
  end.

Definition htmlElementChild (page : Page) (names : list string) : option NodeRef :=
  if isForeign page [] || negb (eqb (localName (data (tree page))) (lit "html"))
  then None
  else firstNamed page names 0 (children (tree page)).

(** [document.head] and [document.body]; [null] is [None]. *)
Definition documentHead (page : Page) : option NodeRef :=
  htmlElementChild page ["head"%string].

Definition documentBody (page : Page) : option NodeRef :=
  htmlElementChild page ["body"; "frameset"]%string.

Definition getElementById (page : Page) (id : string) : option NodeRef :=
  match List.find (fun x => match getAttribute x.2 "id" with
                            | Some v => eqb v (lit id)
                            | None => false
                            end)
                  (([], data (tree page)) :: descendants [] (tree page)) with
  | Some x => Some x.1
  | None => None
  end.

(** [injectStyles]: [document.head.appendChild(styleTag)] throws when
    there is no head.  The appended [style] element matches none of the
    detector's selectors and is the last child of the head, so the tree
    is left as it is. *)
Definition injectStyles (page : Page) : Thrown + unit :=
  match documentHead page with
  | Some _ => inr tt
  | None => inl TypeError
  end.

(** The callback of [.filter].  On an element that is not an HTML
    element the three tests of the first guard compare [undefined] with
    [null] and [0] by [===] and are all false, so the guard does not
    return, and [el.innerText.trim()] throws. *)
Definition isPotentialPrice (page : Page) (el : NodeRef * ElemData) : Thrown + bool :=
  if isForeign page el.1 then inl TypeError
  else inr (Detector.isPotentialPrice (tree page) el).

(** [Array.prototype.filter] with a callback that may throw. *)
Fixpoint filterOrThrow {A} (f : A → Thrown + bool) (l : list A) : Thrown + list A :=
  match l with
  | [] => inr []
  | x :: l' =>
      match f x with
      | inl e => inl e
      | inr keep =>
          match filterOrThrow f l' with
          | inl e => inl e
          | inr kept => inr (if keep then x :: kept else kept)
          end
      end
  end.

Definition potentialPriceElements (page : Page) : Thrown + list (NodeRef * ElemData) :=
  filterOrThrow (isPotentialPrice page) (documentQuerySelectorAll (tree page) priceSelectors).

(** The size test: every comparison with [undefined] is false. *)
Definition outOfBounds (page : Page) (ref : NodeRef) (d : ElemData) : bool :=
  negb (isForeign page ref) && Detector.outOfBounds d.

(** The image test: [undefined > 60] is false. *)
Definition isProductImage (page : Page) (img : NodeRef * ElemData) : bool :=
  negb (isForeign page img.1) && Detector.isProductImage img.2.

Definition findImage (page : Page) (currentElement : NodeRef) : option (NodeRef * ElemData) :=
  List.find (isProductImage page) (querySelectorAll (tree page) currentElement imgSelectors).

(** The title loop: [el.innerText.trim()] throws on an element that is
    not an HTML element. *)
Fixpoint scanTitles (page : Page) (priceElement : NodeRef)
    (potentialTitles : list (NodeRef * ElemData)) : Thrown + option (NodeRef * ElemData) :=
  match potentialTitles with
  | [] => inr None
  | el :: rest =>
      if isForeign page el.1 then inl TypeError
      else if isValidTitle priceElement el then inr (Some el)
      else scanTitles page priceElement rest
  end.

Definition findTitle (page : Page) (priceElement currentElement : NodeRef)
    : Thrown + option (NodeRef * ElemData) :=
  scanTitles page priceElement (querySelectorAll (tree page) currentElement titleSelectors).

Fixpoint climb (page : Page) (processedContainers : gset NodeRef)
    (priceElement : NodeRef) (steps : nat) (currentElement : NodeRef)
    : Thrown + option Found :=
  match steps with
  | O => inr None
  | S steps' =>
      match parentElement currentElement with
      | None => inr None
      | Some currentElement' =>
          let continue := climb page processedContainers priceElement steps' currentElement' in
          match get (tree page) currentElement' with
          | None => inr None
          | Some e =>
              if bool_decide (currentElement' ∈ processedContainers) then continue
              else if outOfBounds page currentElement' (data e) then continue
              else
                match findImage page currentElement' with
                | None => continue
                | Some img =>
                    match findTitle page priceElement currentElement' with
                    | inl e => inl e
                    | inr None => continue
                    | inr (Some t) =>
                        inr (Some {| productContainer := currentElement';
                                     image := img; title := t |})
                    end
                end
          end
      end
  end.

Definition processPrice (page : Page) (st : PassState) (priceElement : NodeRef * ElemData)
    : Thrown + PassState :=
  match climb page (processedContainers st) priceElement.1 CLIMB_LIMIT priceElement.1 with
  | inl e => inl e
  | inr (Some f) =>
      inr {| detections := detections st ++ [detectionOf f priceElement];
             processedContainers := {[ productContainer f ]} ∪ processedContainers st |}
  | inr None => inr st
  end.

(** [forEach]: the first exception ends the loop and the function. *)
Fixpoint runCandidates (page : Page) (st : PassState)
    (candidates : list (NodeRef * ElemData)) : Thrown + PassState :=
  match candidates with
  | [] => inr st
  | priceElement :: rest =>
      match processPrice page st priceElement with
      | inl e => inl e
      | inr st' => runCandidates page st' rest
      end
  end.

(** [displayPageNotification]: a notification element left by an earlier
    pass is reused (the assignments to [innerText] and [style] and the
    calls on [classList] go through on any element of a page); otherwise
    [document.body.appendChild] throws when there is no body. *)
Definition displayPageNotification (page : Page) : Thrown + unit :=
  match getElementById page "product-detector-notification" with
  | Some _ => inr tt
  | None =>
      match documentBody page with
      | Some _ => inr tt
      | None => inl TypeError
      end
  end.

(** The whole injected function: what it returns, or that it throws. *)
Definition detect (page : Page) : Thrown + PassOutcome :=
  match injectStyles page with
  | inl e => inl e
  | inr _ =>
      match potentialPriceElements page with
      | inl e => inl e
      | inr candidates =>
          match runCandidates page initialState candidates with
          | inl e => inl e
          | inr st =>
              match displayPageNotification page with
              | inl e => inl e
              | inr _ =>
                  inr {| finalState := st; notification := notify (results st);
                         returned := results st |}
              end
          end
      end
  end.

(** The elements of the scan that are HTML elements. *)
Definition scannedHtml (page : Page) : list (NodeRef * ElemData) :=
  List.filter (fun el => negb (isForeign page el.1))
    (documentQuerySelectorAll (tree page) priceSelectors).

End Strict.

(** ** Sample pages that are not all HTML *)

Module StrictSamples.

Import JS Dom Detector Samples.

Definition hidden (name : string) (text : jsstring) (cs : list Element) : Element :=
  Elem {| localName := lit name; attributes := ∅; innerText := text;
          offsetParentIsNull := true; offsetWidth := 0; offsetHeight := 0;
          src := []; srcset := []; naturalWidth := 0; naturalHeight := 0;
          loading := None |} cs.

(** An element of the SVG namespace: the layout fields are not read. *)
Definition svgNode (name : string) (attrs : list (string * string)) (cs : list Element)
    : Element :=
  Elem {| localName := lit name; attributes := attrsOf attrs; innerText := [];
          offsetParentIsNull := false; offsetWidth := 0; offsetHeight := 0;
          src := []; srcset := []; naturalWidth := 0; naturalHeight := 0;
          loading := None |} cs.

Definition blogHead : Element := hidden "head" (lit "Blog") [hidden "title" (lit "Blog") []].

(** A page without any price. *)
Definition blogDocument : Strict.Page :=
  {| Strict.tree :=
       box "html" [] (lit "Hello world A first post") 1200 800
         [ blogHead;
           box "body" [] (lit "Hello world A first post") 1200 800
             [ box "h1" [] (lit "Hello world") 600 40 [];
               box "p" [] (lit "A first post") 600 20 [] ] ];
     Strict.foreign := ∅ |}.

(** The same page with an inline SVG picture that holds a link. *)
Definition svgLinkPage : Strict.Page :=
  {| Strict.tree :=
       box "html" [] (lit "Hello world A first post") 1200 800
         [ blogHead;
           box "body" [] (lit "Hello world A first post") 1200 800
             [ box "h1" [] (lit "Hello world") 600 40 [];
               box "p" [] (lit "A first post") 600 20 [];
               svgNode "svg" [("viewBox", "0 0 100 20")]
                 [ svgNode "a" [("href", "/about")]
                     [ svgNode "text" [] [] ] ] ] ];
     Strict.foreign := {[ [2; 1]; [0; 2; 1]; [0; 0; 2; 1] ]}%nat |}.

(** An SVG picture shown in the tab by itself: no head, no body. *)
Definition svgDocument : Strict.Page :=
  {| Strict.tree := svgNode "svg" [("viewBox", "0 0 100 20")] [ svgNode "circle" [] [] ];
     Strict.foreign := {[ []; [0] ]}%nat |}.

(** The shop page as a parsed document has it, with its head. *)
Definition shopDocument : Strict.Page :=
  {| Strict.tree :=
       box "html" [] shopText 1200 3000
         [ blogHead;
           box "body" [] shopText 1200 3000
             [ box "div" [("id", "grid")] shopText 900 700
                 [ mouseCard; keyboardCard; reviewBlock; slimCard ] ] ];
     Strict.foreign := ∅ |}.

Definition noProducts : PassOutcome :=
  {| finalState := initialState;
     notification := {| message := lit "No products detected on this page."; type := Error |};
     returned := [] |}.

End StrictSamples.

(** ** Auxiliary definitions for the proofs *)

Import JS Regex Patterns Dom Detector Described.

(** The inner loop of [descendants], named. *)
Fixpoint walkChildren (ref : NodeRef) (i : nat) (cs : list Element)
    : list (NodeRef * ElemData) :=
  match cs with
  | [] => []
  | c :: cs' => ((i :: ref, data c) :: descendants (i :: ref) c) ++ walkChildren ref (S i) cs'
  end.

(** The claimed set holds exactly the containers of the detections made
    so far, and no container backs two of them. *)
Definition Consistent (st : PassState) : Prop :=
  NoDup (List.map d_container (detections st))
  ∧ ∀ c, c ∈ processedContainers st ↔ c ∈ List.map d_container (detections st).

(** Where a detection comes from. *)
Definition FromCandidates (root : Element) (cs : list (NodeRef * ElemData))
    (st : PassState) : Prop :=
  ∀ d, d ∈ detections st →
    ∃ pe claimed f, pe ∈ cs
      ∧ climb root claimed pe.1 CLIMB_LIMIT pe.1 = Some f
      ∧ d = detectionOf f pe.

(** Whether every match of a pattern takes in at least one unit of a
    given kind, read off the syntax: a class whose members are all of
    that kind, either part of a sequence, both sides of an alternative, a
    compulsory repetition. *)
Fixpoint consumesClass (kind : cls → bool) (r : regex) : bool :=
  match r with
  | Regex.Class cs => forallb kind cs
  | Seq r1 r2 => consumesClass kind r1 || consumesClass kind r2
  | Alt r1 r2 => consumesClass kind r1 && consumesClass kind r2
  | Repeat lo _ r' => (0 <? lo)%nat && consumesClass kind r'
  | Empty | Bol | Eol | WordBoundary => false
  end.

Definition hasUnit (kind : N → bool) (s : jsstring) : bool := existsb kind s.

(** Digits. *)
Definition isDigitClass (m : cls) : bool :=
  match m with
  | Digit => true
  | _ => false
  end.

Definition hasDigit (s : jsstring) : bool := hasUnit isDigit s.

(** Currency signs and the letters currency codes are made of. *)
Definition isCurrencySign (c : N) : bool :=
  existsb (N.eqb c) [36; 8364; 163; 165; 8377; 8381; 8361; 8378]%N.

Definition isCurrencyUnit (c : N) : bool := isCurrencySign c || isUpper c || isLower c.

Definition isCurrencyClass (m : cls) : bool :=
  match m with
  | One c => isCurrencyUnit c
  | _ => false
  end.

Definition hasCurrency (s : jsstring) : bool := hasUnit isCurrencyUnit s.

(** What a successful run of a matcher tells: the continuation was
    entered on a suffix of the input, after a stretch that holds a unit
    of the kind when the pattern demands one. *)
Definition Consumes (kind : N → bool) (demands : bool) (s : jsstring)
    (k : continuation) : Prop :=
  ∃ w s' prev', s = w ++ s' ∧ k prev' s' = true
                ∧ (demands = true → hasUnit kind w = true).

(** A string without a line feed, and a record made of such strings. *)
Definition singleLine (s : jsstring) : Prop := 10%N ∉ s.

Definition SingleLineRecord (product : ProductRecord) : Prop :=
  singleLine (Product.title product)
  ∧ singleLine (Product.imageUrl product)
  ∧ singleLine (Product.price product).

(** The text the popup hands to the download: [fileContent]. *)
Definition fileContent (products : list ProductRecord) : jsstring :=
  List.flat_map Popup.reportEntry products.

(** Two records whose report reads like three. *)
Definition mergedTitle : jsstring :=
  lit "Pen" ++ Popup.newline ++ lit "Image: N/A" ++ Popup.newline
  ++ lit "Price: $1" ++ Popup.newline ++ Popup.newline ++ lit "Title: Ink".

Definition mergedReport : list ProductRecord :=
  [ {| Product.title := mergedTitle; Product.imageUrl := lit "N/A";
       Product.price := lit "$2" |} ].

Definition separateReport : list ProductRecord :=
  [ {| Product.title := lit "Pen"; Product.imageUrl := lit "N/A";
       Product.price := lit "$1" |};
    {| Product.title := lit "Ink"; Product.imageUrl := lit "N/A";
       Product.price := lit "$2" |} ].

(** ** Facts about the page model *)

Lemma Element_forall_ind (P : Element → Prop) :
  (∀ d cs, Forall P cs → P (Elem d cs)) → ∀ e, P e.
Proof.
  intros step. fix IH 1. intros [d cs]. apply step.
  induction cs as [|c cs IHcs]; constructor; [apply IH | exact IHcs].
Qed.

Lemma descendants_unfold ref d cs :
  descendants ref (Elem d cs) = walkChildren ref 0 cs.
Proof.
  simpl. generalize 0%nat. induction cs as [|c cs IH]; intros i; simpl; [done|].
  by rewrite IH.
Qed.

Lemma get_cons root i parent :
  get root (i :: parent) = get root parent ≫= λ e, children e !! i.
Proof. simpl. by destruct (get root parent). Qed.

Lemma get_parent root i parent e :
  get root (i :: parent) = Some e → is_Some (get root parent).
Proof. rewrite get_cons. destruct (get root parent); [eauto | done]. Qed.

Lemma get_suffix root a ref :
  a `suffix_of` ref → is_Some (get root ref) → is_Some (get root a).
Proof.
  induction ref as [|i ref IH]; intros Hsuf Hget.
  - apply suffix_nil_inv in Hsuf. by subst.
  - destruct a as [|j a]; [by eexists|].
    apply suffix_cons_inv in Hsuf as [->|Hsuf]; [done|].
    apply IH; [done|]. destruct Hget as [e He]. by eapply get_parent.
Qed.

Lemma walkChildren_get root ctx cs :
  Forall (λ c, ∀ ctx' x, get root ctx' = Some c → x ∈ descendants ctx' c →
                 ∃ e', get root x.1 = Some e' ∧ data e' = x.2) cs →
  ∀ k x,
    (∀ i c, cs !! i = Some c → get root ((k + i)%nat :: ctx) = Some c) →
    x ∈ walkChildren ctx k cs →
    ∃ e', get root x.1 = Some e' ∧ data e' = x.2.
Proof.
  induction cs as [|c cs IHcs]; intros IH k x Hall Hin; simpl in Hin.
  - by apply elem_of_nil in Hin.
  - apply Forall_cons in IH as [IHc IHrest].
    pose proof (Hall 0%nat c eq_refl) as Hc. rewrite Nat.add_0_r in Hc.
    rewrite elem_of_cons, elem_of_app in Hin.
    destruct Hin as [->|[Hin|Hin]].
    + exists c. done.
    + by eapply IHc.
    + apply (IHcs IHrest (S k)); [|done].
      intros i c' Hi. specialize (Hall (S i) c' Hi).
      by rewrite Nat.add_succ_r in Hall.
Qed.

(** Every listed descendant is a node of the page, listed with its own
    data. *)
Lemma descendants_get root e :
  ∀ ctx x, get root ctx = Some e → x ∈ descendants ctx e →
    ∃ e', get root x.1 = Some e' ∧ data e' = x.2.
Proof.
  induction e as [d cs IH] using Element_forall_ind. intros ctx x Hctx.
  rewrite descendants_unfold. apply walkChildren_get; [done|].
  intros i c Hi. rewrite get_cons, Hctx. done.
Qed.

(** ** Checks of the pattern library *)

(** The prefix form needs a word boundary after the magnitude, so four
    digits in a row or a letter right after the digits spoil it. *)
Example price_needs_boundary :
  List.map (test priceRegex) [lit "$1234"; lit "$ 5x"; lit "$1,234"; lit "Only $5 today"]
  = [false; false; true; true].
Proof. vm_compute; reflexivity. Qed.

(** The suffix form is anchored at both ends; the flag [i] makes the
    currency codes case-insensitive. *)
Example price_suffix_anchored :
  List.map (test priceRegex)
    [lit "12 tl"; lit "usd 5"; lit "19,99 " ++ [8364%N]; lit "19,99" ++ [160%N; 8364%N];
     lit "from 19,99 " ++ [8364%N]; lit "12"; lit "EUR"]
  = [true; true; true; true; false; false; false].
Proof. vm_compute; reflexivity. Qed.

(** The review keywords are whole words; the ratio form is the whole
    text. *)
Example review_keywords_are_words :
  List.map (test reviewPattern)
    [lit "5 Stars"; lit "starship"; lit "128 reviews"; lit "4/5"; lit "4.25/5";
     lit "14/5"; lit "out of stock"; lit "from 12.50"]
  = [true; false; true; true; true; false; false; true].
Proof. vm_compute; reflexivity. Qed.

Example digits_only_checks :
  List.map (test digitsOnly) [lit "2024"; lit "20 24"; lit ""] = [true; false; false].
Proof. vm_compute; reflexivity. Qed.

Example string_functions_checks :
  trim (lit "  a b  ") = lit "a b"
  ∧ split 44 (lit "a,b,,c") = [lit "a"; lit "b"; lit ""; lit "c"]
  ∧ split 44 (lit "") = [lit ""]
  ∧ lastEntry (lit "s.jpg 1x, l.jpg 2x") = lit "l.jpg"
  ∧ lastEntry (lit "s.jpg 1x,") = lit ""
  ∧ tokens (lit " card  slim ") = [lit "card"; lit "slim"].
Proof. repeat split; vm_compute; reflexivity. Qed.

(** ** Facts about the scanner *)

Lemma scanned_is_node root sel x :
  x ∈ documentQuerySelectorAll root sel →
  ∃ e, get root x.1 = Some e ∧ data e = x.2.
Proof.
  unfold documentQuerySelectorAll.
  intros Hin%list_elem_of_In. apply filter_In in Hin as [Hin _].
  apply list_elem_of_In, elem_of_cons in Hin as [->|Hin].
  - by exists root.
  - by eapply (descendants_get root root []).
Qed.

Lemma candidate_passes root el :
  el ∈ potentialPriceElements root →
  isPotentialPrice root el = true ∧ ∃ e, get root el.1 = Some e ∧ data e = el.2.
Proof.
  unfold potentialPriceElements. intros Hin%list_elem_of_In.
  apply filter_In in Hin as [Hin Hok]. split; [done|].
  by apply (scanned_is_node root priceSelectors), list_elem_of_In.
Qed.

Lemma closest_complete root sel ref a ea :
  is_Some (get root ref) → a `suffix_of` ref →
  get root a = Some ea → matches sel (data ea) = true →
  is_Some (closest root sel ref).
Proof.
  induction ref as [|i ref IH]; intros [e He] Hsuf Ha Hm.
  - apply suffix_nil_inv in Hsuf. subst a. simpl in *.
    simplify_eq. by rewrite Hm.
  - cbn [closest]. rewrite He.
    destruct (matches sel (data e)) eqn:Hme; [by eexists|].
    destruct a as [|j a].
    + apply IH; [by eapply get_parent | apply suffix_nil | done | done].
    + apply suffix_cons_inv in Hsuf as [Heq|Hsuf].
      * simplify_eq. congruence.
      * apply IH; [by eapply get_parent | done | done | done].
Qed.

Lemma isPotentialPrice_true root el :
  isPotentialPrice root el = true →
  closest root reviewContainerSelectors el.1 = None
  ∧ (0 < length (trim (innerText el.2)) ≤ MAX_TEXT_ELEMENT_LENGTH)%nat
  ∧ offsetParentIsNull el.2 = false.
Proof.
  unfold isPotentialPrice.
  destruct (offsetParentIsNull el.2) eqn:Hvis; [done|]. simpl.
  destruct (_ || _); [done|].
  destruct (length (trim (innerText el.2)) =? 0)%nat eqn:Hz; [done|].
  destruct (MAX_TEXT_ELEMENT_LENGTH <? _)%nat eqn:Hmax; [done|]. simpl.
  destruct (closest _ _ _); [done|]. intros _.
  apply Nat.eqb_neq in Hz. apply Nat.ltb_ge in Hmax. repeat split; [lia | done].
Qed.

(** ** Facts about the climb *)

Lemma qualifies_Some root claimed pe a f :
  qualifies root claimed pe a = Some f →
  productContainer f = a ∧ (a ∉ claimed)
  ∧ (∃ e, get root a = Some e ∧ outOfBounds (data e) = false)
  ∧ findImage root a = Some (image f)
  ∧ findTitle root pe a = Some (title f).
Proof.
  unfold qualifies. destruct (get root a) as [e|] eqn:He; [|done].
  case_bool_decide as Hcl; [done|].
  destruct (outOfBounds (data e)) eqn:Hb; [done|].
  destruct (findImage root a) as [img|]; [|done].
  destruct (findTitle root pe a) as [t|]; [|done].
  intros [= <-]. simpl. eauto 10.
Qed.

Lemma climb_unfold root claimed pe steps i parent :
  climb root claimed pe (S steps) (i :: parent) =
    match get root parent with
    | None => None
    | Some _ =>
        match qualifies root claimed pe parent with
        | Some f => Some f
        | None => climb root claimed pe steps parent
        end
    end.
Proof.
  cbn [climb parentElement]. unfold qualifies.
  destruct (get root parent) as [e|]; [|done].
  case_bool_decide; [done|].
  destruct (outOfBounds (data e)); [done|].
  destruct (findImage root parent); [|done].
  by destruct (findTitle root pe parent).
Qed.


Lemma climb_Some root claimed pe steps cur f :
  climb root claimed pe steps cur = Some f →
  qualifies root claimed pe (productContainer f) = Some f
  ∧ productContainer f ∈ take steps (ancestors cur).
Proof.
  revert cur. induction steps as [|steps IH]; intros cur; [done|].
  destruct cur as [|i parent]; [done|].
  rewrite climb_unfold. cbn [ancestors take].
  destruct (get root parent); [|done].
  destruct (qualifies root claimed pe parent) as [f'|] eqn:Hq.
  - intros [= ->]. destruct (qualifies_Some _ _ _ _ _ Hq) as [-> _].
    split; [done | (apply elem_of_cons; by left)].
  - intros Hc. destruct (IH _ Hc) as [? ?]. split; [done | (apply elem_of_cons; by right)].
Qed.

(** ** Facts about the pass *)

Lemma processPrice_cases root st pe :
  (climb root (processedContainers st) pe.1 CLIMB_LIMIT pe.1 = None
   ∧ processPrice root st pe = st)
  ∨ (∃ f, climb root (processedContainers st) pe.1 CLIMB_LIMIT pe.1 = Some f
      ∧ detections (processPrice root st pe) = detections st ++ [detectionOf f pe]
      ∧ processedContainers (processPrice root st pe)
        = {[ productContainer f ]} ∪ processedContainers st).
Proof.
  unfold processPrice.
  destruct (climb _ _ _ _ _) as [f|]; [right; by exists f | by left].
Qed.

Lemma runCandidates_app root st cs1 cs2 :
  runCandidates root st (cs1 ++ cs2) = runCandidates root (runCandidates root st cs1) cs2.
Proof. apply fold_left_app. Qed.

(** Induction over the candidates a pass goes through. *)
Lemma runCandidates_invariant root (P : PassState → Prop) cs st :
  P st →
  (∀ st' pe, pe ∈ cs → P st' → P (processPrice root st' pe)) →
  P (runCandidates root st cs).
Proof.
  revert st. induction cs as [|pe cs IH]; intros st Hst Hstep; [done|].
  simpl. apply IH.
  - apply Hstep; [(apply elem_of_cons; by left) | done].
  - intros st' pe' Hin. apply Hstep. (apply elem_of_cons; by right).
Qed.

Lemma Consistent_initial : Consistent initialState.
Proof.
  split; [constructor|]. intros c. simpl. split; [set_solver|].
  intros H. by apply elem_of_nil in H.
Qed.

Lemma Consistent_processPrice root st pe :
  Consistent st → Consistent (processPrice root st pe).
Proof.
  intros [Hnd Hset].
  destruct (processPrice_cases root st pe) as [[_ ->]|(f & Hc & Hd & Hp)]; [done|].
  apply climb_Some in Hc as [Hq _]. apply qualifies_Some in Hq as (_ & Hfresh & _).
  split.
  - rewrite Hd, map_app. simpl. apply NoDup_app. split; [done|]. split.
    + intros c Hin Hc. apply list_elem_of_singleton in Hc as ->.
      apply Hfresh, Hset. done.
    + apply NoDup_singleton.
  - intros c. rewrite Hp, Hd, map_app, elem_of_app, elem_of_union, Hset.
    simpl. rewrite elem_of_singleton, list_elem_of_singleton. tauto.
Qed.

Lemma Consistent_run root st cs :
  Consistent st → Consistent (runCandidates root st cs).
Proof.
  intros Hst. apply runCandidates_invariant; [done|].
  intros st' pe _. apply Consistent_processPrice.
Qed.

Lemma FromCandidates_run root cs :
  FromCandidates root cs (runCandidates root initialState cs).
Proof.
  apply runCandidates_invariant.
  - intros d Hd. by apply elem_of_nil in Hd.
  - intros st pe Hpe Hst d.
    destruct (processPrice_cases root st pe) as [[_ ->]|(f & Hc & Hd & _)]; [apply Hst|].
    rewrite Hd, elem_of_app, list_elem_of_singleton.
    intros [Hin| ->]; [by apply Hst|]. eauto 10.
Qed.

Lemma processedContainers_mono root st cs :
  processedContainers st ⊆ processedContainers (runCandidates root st cs).
Proof.
  apply (runCandidates_invariant root (λ st', processedContainers st ⊆ processedContainers st')).
  - done.
  - intros st' pe _ Hsub.
    destruct (processPrice_cases root st' pe) as [[_ ->]|(f & _ & _ & ->)]; set_solver.
Qed.

(** ** The properties *)

Import Samples.

(** C1 (uniqueness of containers).  In a detection pass, two distinct
    records never share a container.  Whenever a candidate is processed,
    the claimed set holds the containers of all earlier detections; the
    climb only ever selects a node outside that set, so a node enters the
    set at most once; and the set only grows until the end of the pass,
    so later candidates keep skipping it. *)
Theorem containers_are_distinct (root : Element) :
  (∀ i j d1 d2,
     detections (finalState (detect root)) !! i = Some d1 →
     detections (finalState (detect root)) !! j = Some d2 →
     i ≠ j → d_container d1 ≠ d_container d2)
  ∧ (∀ before pe after f,
       potentialPriceElements root = before ++ pe :: after →
       let st := runCandidates root initialState before in
       climb root (processedContainers st) pe.1 CLIMB_LIMIT pe.1 = Some f →
       (productContainer f ∉ processedContainers st)
       ∧ (∀ d, d ∈ detections st →
            d_container d ∈ processedContainers st ∧ d_container d ≠ productContainer f)
       ∧ processedContainers st ⊆ processedContainers (processPrice root st pe)
       ∧ processedContainers (processPrice root st pe)
           ⊆ processedContainers (finalState (detect root))).
Proof.
  split.
  - intros i j d1 d2 H1 H2 Hij Heq.
    destruct (Consistent_run root initialState (potentialPriceElements root)
                Consistent_initial) as [Hnd _].
    apply Hij. eapply NoDup_lookup; [exact Hnd | |].
    + rewrite list_lookup_fmap. unfold detect in H1. simpl in H1. by rewrite H1.
    + rewrite list_lookup_fmap. unfold detect in H2. simpl in H2. rewrite H2.
      simpl. by rewrite Heq.
  - intros before pe after f Hsplit st Hclimb.
    destruct (Consistent_run root initialState before Consistent_initial) as [_ Hset].
    fold st in Hset.
    pose proof Hclimb as Hc. apply climb_Some in Hc as [Hq _].
    apply qualifies_Some in Hq as (_ & Hfresh & _).
    split; [done|]. split; [|split].
    + intros d Hd.
      assert (d_container d ∈ processedContainers st) as Hin.
      { apply Hset, list_elem_of_fmap. by exists d. }
      split; [done|]. intros Heq. apply Hfresh. by rewrite <- Heq.
    + apply (processedContainers_mono root st [pe]).
    + unfold detect. simpl. rewrite Hsplit.
      change (before ++ pe :: after) with (before ++ [pe] ++ after).
      rewrite !runCandidates_app. fold st. apply processedContainers_mono.
Qed.

Lemma containers_are_distinct_shop :
  d_container mouseDetection ≠ d_container oldPriceDetection
  ∧ productContainer oldPriceFound
      ∉ processedContainers
          (runCandidates shop initialState (take 2 (potentialPriceElements shop))).
Proof.
  destruct (containers_are_distinct shop) as [Hpair Hstep]. split.
  - apply (Hpair 0%nat 2%nat); [vm_compute; reflexivity | vm_compute; reflexivity | lia].
  - apply (Hstep (take 2 (potentialPriceElements shop))
             (keyboardOldPriceRef, data keyboardOldPrice)
             (drop 3 (potentialPriceElements shop)) oldPriceFound).
    + vm_compute; reflexivity.
    + vm_compute; reflexivity.
Defined.

(** C2 (price pattern).  Each of "$12.99", "19,99 €" and "1.234,56 EUR"
    is outside the review pattern and inside the price pattern, so the
    classifier accepts every node with that trimmed text (and so does the
    whole candidate filter, for a visible node that passes the two review
    guards before it).  Each of "4.5 out of 5 stars" and "4.5/5" is
    inside the review pattern, so the classifier rejects every node with
    that trimmed text before the price pattern or the semantic price
    attribute is looked at, and the candidate filter rejects it as well. *)
Theorem price_and_rating_texts :
  Forall (λ s,
    test reviewPattern s = false ∧ test priceRegex s = true
    ∧ (∀ d, trim (innerText d) = s → classifyText (trim (innerText d)) d = true)
    ∧ (∀ root el,
         trim (innerText el.2) = s →
         offsetParentIsNull el.2 = false →
         offsetWidth el.2 ≠ 0 → offsetHeight el.2 ≠ 0 →
         closest root reviewContainerSelectors el.1 = None →
         isReviewElement el.2 = false →
         isPotentialPrice root el = true)) priceTexts
  ∧ Forall (λ s,
      test reviewPattern s = true
      ∧ (∀ d, trim (innerText d) = s → classifyText (trim (innerText d)) d = false)
      ∧ (∀ root el, trim (innerText el.2) = s → isPotentialPrice root el = false))
      ratingTexts.
Proof.
  assert (∀ s, test reviewPattern s = false → test priceRegex s = true →
               (0 <? length s)%nat = true → (length s <=? 50)%nat = true →
    test reviewPattern s = false ∧ test priceRegex s = true
    ∧ (∀ d, trim (innerText d) = s → classifyText (trim (innerText d)) d = true)
    ∧ (∀ root el,
         trim (innerText el.2) = s →
         offsetParentIsNull el.2 = false →
         offsetWidth el.2 ≠ 0 → offsetHeight el.2 ≠ 0 →
         closest root reviewContainerSelectors el.1 = None →
         isReviewElement el.2 = false →
         isPotentialPrice root el = true)) as Hprice.
  { intros s Hr Hp Hlo Hhi. split; [done|]. split; [done|].
    assert (∀ d, trim (innerText d) = s → classifyText (trim (innerText d)) d = true) as Hc.
    { intros d ->. unfold classifyText. by rewrite Hr, Hp. }
    split; [done|]. intros root el Ht Hvis Hw Hh Hcl Hrev.
    unfold isPotentialPrice. rewrite Hvis, Hcl, Hrev. simpl.
    apply Z.eqb_neq in Hw, Hh. rewrite Hw, Hh. simpl.
    specialize (Hc el.2 Ht). rewrite Ht in *.
    apply Nat.ltb_lt in Hlo. apply Nat.leb_le in Hhi.
    destruct (Nat.eqb_spec (length s) 0); [lia|].
    destruct (Nat.ltb_spec MAX_TEXT_ELEMENT_LENGTH (length s)); [unfold MAX_TEXT_ELEMENT_LENGTH in *; lia|].
    done. }
  assert (∀ s, test reviewPattern s = true →
      test reviewPattern s = true
      ∧ (∀ d, trim (innerText d) = s → classifyText (trim (innerText d)) d = false)
      ∧ (∀ root el, trim (innerText el.2) = s → isPotentialPrice root el = false))
    as Hrating.
  { intros s Hr. split; [done|].
    assert (∀ d, trim (innerText d) = s → classifyText (trim (innerText d)) d = false) as Hc.
    { intros d ->. unfold classifyText. by rewrite Hr. }
    split; [done|]. intros root el Ht. unfold isPotentialPrice.
    rewrite (Hc el.2 Ht).
    repeat match goal with |- context [if ?b then _ else _] => destruct b end; done. }
  split.
  - unfold priceTexts.
    repeat (apply Forall_cons; split; [apply Hprice; vm_compute; reflexivity|]).
    apply Forall_nil_2.
  - unfold ratingTexts.
    repeat (apply Forall_cons; split; [apply Hrating; vm_compute; reflexivity|]).
    apply Forall_nil_2.
Qed.

Lemma price_and_rating_texts_labels :
  classifyText (trim (innerText (label (lit "$12.99")))) (label (lit "$12.99")) = true
  ∧ isPotentialPrice shop (mousePriceRef, data mousePrice) = true
  ∧ classifyText (trim (innerText (label (lit "4.5/5")))) (label (lit "4.5/5")) = false
  ∧ isPotentialPrice shop (mousePriceRef, label (lit " 4.5 out of 5 stars")) = false.
Proof.
  destruct price_and_rating_texts as [Hprice Hrating].
  pose proof (Forall_inv Hprice) as (_ & _ & Hdollar & _).
  pose proof (Forall_inv (Forall_inv_tail Hprice)) as (_ & _ & _ & Heuro).
  pose proof (Forall_inv Hrating) as (_ & _ & Hstars).
  pose proof (Forall_inv (Forall_inv_tail Hrating)) as (_ & Hratio & _).
  split; [|split; [|split]].
  - apply Hdollar. vm_compute; reflexivity.
  - apply Heuro; [vm_compute; reflexivity | reflexivity | simpl; lia | simpl; lia
                 | vm_compute; reflexivity | vm_compute; reflexivity].
  - apply Hratio. vm_compute; reflexivity.
  - apply Hstars. vm_compute; reflexivity.
Defined.










Lemma truthy_Some (v : jsstring) : truthy (Some v) = nonEmpty v.
Proof. by destruct v. Qed.

Lemma firstTruthy_Some vs v : firstTruthy vs = Some v → truthy (Some v) = true.
Proof.
  unfold firstTruthy. destruct (List.find truthy vs) as [o|] eqn:Hf; [|done].
  apply find_some in Hf as [_ Ht]. destruct o; simpl; [|done]. by intros [= <-].
Qed.

(** The chain of [||] over the lazy-load attributes yields the first
    non-empty one, and an empty or missing value when there is none. *)
Lemma lazy_chain (a b c : option jsstring) :
  match firstTruthy [a; b; c] with
  | Some v => orValue (orValue a b) c = Some v
  | None => truthy (orValue (orValue a b) c) = false
  end.
Proof.
  destruct a as [[|? ?]|], b as [[|? ?]|], c as [[|? ?]|]; reflexivity.
Qed.

Lemma nonEmpty_truthy (v : jsstring) : truthy (Some v) = true → nonEmpty v = true.
Proof. by rewrite truthy_Some. Qed.

(** After the first assignment the variable holds the direct source or,
    failing that, the first non-empty lazy-load attribute; it is empty or
    missing when there is neither. *)
Lemma first_source (img : ElemData) :
  match orElse (directSource img) (lazySource img) with
  | Some v => afterLazyAttributes img (Some (src img)) = Some v ∧ truthy (Some v) = true
  | None => truthy (afterLazyAttributes img (Some (src img))) = false
  end.
Proof.
  unfold afterLazyAttributes, directSource, falsy. rewrite truthy_Some. cbn [on].
  destruct (nonEmpty (src img)) eqn:Hne; cbn [negb orb andb];
    [destruct (startsWith (src img) (lit "data:image/gif;base64")); cbn [negb orb andb];
     [|destruct (includes (src img) (lit "blank.gif")); cbn [negb orb andb]]|].
  3: { cbn [orElse]. split; [done | by rewrite truthy_Some]. }
  all: cbn [orElse]; unfold lazySource;
    pose proof (lazy_chain (datasetSrc img) (datasetLazyload img)
                  (getAttribute img "data-src")) as Hlazy;
    destruct (firstTruthy _) as [v|] eqn:Hfirst; [|done];
    split; [done | by eapply firstTruthy_Some].
Qed.

(** C6 as the specification words it fails: when the lazy-load
    attribute holds a gif data URI and the image has a source set, the
    detector goes on to the source set, whereas the strict precedence
    stops at the lazy-load value and answers with the sentinel. *)
Lemma strict_precedence_fails_on_lazy_placeholder :
  isProductImage lazyPicture = true
  ∧ actualImageUrl lazyPicture = lit "https://shop.example/l.jpg"
  ∧ describedImageUrl lazyPicture = lit "N/A"
  ∧ actualImageUrl lazyPicture ≠ describedImageUrl lazyPicture.
Proof.
  split; [vm_compute; reflexivity|].
  split; [vm_compute; reflexivity|]. split; [vm_compute; reflexivity|].
  vm_compute. discriminate.
Qed.

(** C6, amended (image URL).  The URL of the chosen image is the direct
    source when it is non-empty, does not begin with
    "data:image/gif;base64" and does not contain "blank.gif"; otherwise
    the first non-empty one of the lazy-load attributes data-src,
    data-lazyload, data-src.  When neither gives a value, or the value
    begins with "data:image/gif", and the source set is non-empty, the
    URL is the last entry of the source set instead.  The sentinel "N/A"
    replaces a missing or empty result and any result that begins with
    "data:". *)
Theorem image_url_precedence (img : ElemData) :
  actualImageUrl img = precedenceImageUrl img.
Proof.
  unfold actualImageUrl, precedenceImageUrl.
  pose proof (first_source img) as Hfirst.
  destruct (orElse (directSource img) (lazySource img)) as [v|].
  - destruct Hfirst as [-> Hv].
    unfold afterSourceSet, afterFallback, sourceSetEntry, isGifDataUri, falsy.
    rewrite Hv. cbn [negb orb on].
    destruct (startsWith v (lit "data:image/gif")), (nonEmpty (srcset img)); cbn [andb];
      rewrite ?Hv, ?truthy_Some; cbn [negb orb on sentinelIfUnusable];
      rewrite ?(nonEmpty_truthy _ Hv); cbn [negb orb];
      repeat match goal with
             | |- context [if ?b then _ else _] => destruct b
             end; done.
  - unfold afterSourceSet, afterFallback, sourceSetEntry, falsy.
    rewrite Hfirst. cbn [negb orb].
    destruct (nonEmpty (srcset img)); cbn [andb].
    + rewrite truthy_Some. cbn [on sentinelIfUnusable].
      repeat match goal with
             | |- context [if ?b then _ else _] => destruct b
             end; done.
    + by rewrite Hfirst.
Qed.

(** C7 (review exclusion).  A node that matches a review-container
    selector, or has an ancestor that does, is rejected by the candidate
    filter; it is not among the candidates and no detection of the pass
    has it as its price node. *)
Theorem inside_review_container_rejected (root : Element) (ref marked : NodeRef)
    (e em : Element) :
  get root ref = Some e →
  marked `suffix_of` ref →
  get root marked = Some em →
  matches reviewContainerSelectors (data em) = true →
  is_Some (closest root reviewContainerSelectors ref)
  ∧ (∀ d, isPotentialPrice root (ref, d) = false)
  ∧ (∀ d, (ref, d) ∉ potentialPriceElements root)
  ∧ (∀ det, det ∈ detections (finalState (detect root)) → d_price det ≠ ref).
Proof.
  intros He Hsuf Hem Hmatch.
  assert (is_Some (closest root reviewContainerSelectors ref)) as [c Hc].
  { eapply closest_complete; [by eexists | done | done | done]. }
  assert (∀ d, isPotentialPrice root (ref, d) = false) as Hrej.
  { intros d. unfold isPotentialPrice. cbn [fst snd]. rewrite Hc.
    repeat match goal with |- context [if ?b then _ else _] => destruct b end; done. }
  assert (∀ d, (ref, d) ∉ potentialPriceElements root) as Hnot.
  { intros d [Hok _]%candidate_passes. by rewrite Hrej in Hok. }
  split; [by eexists|]. split; [done|]. split; [done|].
  intros det Hdet Heq.
  destruct (FromCandidates_run root (potentialPriceElements root) det Hdet)
    as (pe & claimed & f & Hpe & _ & ->).
  simpl in Heq. destruct pe as [r d]. simpl in Heq. subst r. by apply (Hnot d).
Qed.

Lemma inside_review_container_rejected_shop :
  isPotentialPrice shop (reviewPriceRef, data reviewPrice) = false
  ∧ d_price mouseDetection ≠ reviewPriceRef.
Proof.
  destruct (inside_review_container_rejected shop reviewPriceRef reviewBlockRef
              reviewPrice reviewBlock) as (_ & Hrej & _ & Hdet).
  - reflexivity.
  - by exists [2%nat].
  - reflexivity.
  - vm_compute; reflexivity.
  - split; [apply Hrej|].
    apply Hdet, (list_elem_of_lookup_2 _ 0%nat). vm_compute; reflexivity.
Defined.

Lemma isValidTitle_spec (priceElement : NodeRef) (el : NodeRef * ElemData) :
  isValidTitle priceElement el = true ↔ QualifiesAsTitle priceElement el.
Proof.
  unfold isValidTitle, QualifiesAsTitle, contains,
    MIN_TITLE_LENGTH, MAX_TITLE_LENGTH. cbn zeta.
  rewrite !andb_true_iff, !negb_true_iff, bool_decide_eq_false,
    !Nat.leb_le, !Z.ltb_lt.
  split.
  - intros (((((((((_ & ?) & ?) & ?) & ?) & ?) & ?) & ?) & ?) & ?). repeat split; done.
  - intros ([Hlo Hhi] & ? & ? & ? & ? & ? & ? & ?). repeat split; try done.
    destruct (trim (innerText el.2)); [simpl in Hlo; lia | done].
Qed.

Lemma scanTitles_Some (priceElement : NodeRef) (titles : list (NodeRef * ElemData)) t :
  scanTitles priceElement titles = Some t ↔
  ∃ earlier later,
    titles = earlier ++ t :: later
    ∧ isValidTitle priceElement t = true
    ∧ Forall (λ x, isValidTitle priceElement x = false) earlier.
Proof.
  induction titles as [|x rest IH]; simpl.
  - split; [done|]. intros (earlier & later & Heq & _). by destruct earlier.
  - destruct (isValidTitle priceElement x) eqn:Hx.
    + split.
      * intros [= ->]. exists [], rest. by repeat split.
      * intros (earlier & later & Heq & Ht & Hall).
        destruct earlier as [|y earlier]; [by injection Heq as ->|].
        injection Heq as -> _. apply Forall_inv in Hall. congruence.
    + rewrite IH. split.
      * intros (earlier & later & -> & Ht & Hall).
        exists (x :: earlier), later. repeat split; [done | by constructor].
      * intros (earlier & later & Heq & Ht & Hall).
        destruct earlier as [|y earlier]; [injection Heq as -> _; congruence|].
        injection Heq as -> ->. exists earlier, later.
        repeat split; [done | by eapply Forall_inv_tail].
Qed.




(** C10 (price field).  The price of every record of a pass is the
    trimmed text of the node the record was detected from, and it has at
    least one and at most 50 characters. *)
Theorem price_field_is_candidate_text (root : Element) :
  (∀ d, d ∈ detections (finalState (detect root)) →
     ∃ e, get root (d_price d) = Some e
          ∧ Product.price (d_record d) = trim (innerText (data e))
          ∧ (0 < length (Product.price (d_record d)) ≤ 50)%nat)
  ∧ (∀ r, r ∈ returned (detect root) → (0 < length (Product.price r) ≤ 50)%nat).
Proof.
  assert (∀ d, d ∈ detections (finalState (detect root)) →
     ∃ e, get root (d_price d) = Some e
          ∧ Product.price (d_record d) = trim (innerText (data e))
          ∧ (0 < length (Product.price (d_record d)) ≤ 50)%nat) as Hdet.
  { intros d Hd.
    destruct (FromCandidates_run root (potentialPriceElements root) d Hd)
      as (pe & claimed & f & Hpe & _ & ->).
    apply candidate_passes in Hpe as (Hok & e & He & Hdata).
    apply isPotentialPrice_true in Hok as (_ & Hlen & _).
    exists e. simpl. rewrite Hdata. done. }
  split; [done|]. intros r Hr.
  unfold detect, returned, results in Hr. cbn [finalState] in Hr.
  apply list_elem_of_fmap in Hr as (d & -> & Hd).
  destruct (Hdet d Hd) as (_ & _ & _ & Hlen). done.
Qed.

Lemma price_field_is_candidate_text_shop :
  (0 < length (Product.price (d_record mouseDetection)) ≤ 50)%nat.
Proof.
  destruct (price_field_is_candidate_text shop) as [Hdet _].
  destruct (Hdet mouseDetection) as (_ & _ & _ & Hlen); [|exact Hlen].
  apply (list_elem_of_lookup_2 _ 0%nat). vm_compute; reflexivity.
Defined.

(** ** The earlier revision, where it differs *)

(** The earlier title test wants more than 5 and fewer than 200
    characters. *)
Remark earlier_title_bounds_exclusive :
  isValidTitle mousePriceRef shortHeading = true
  ∧ Earlier.isValidTitle mousePriceRef shortHeading = false.
Proof. split; vm_compute; reflexivity. Qed.

(** The earlier review-container test stops after the node and five
    ancestors. *)
Remark earlier_review_test_bounded :
  get deepReview deepPriceRef = Some reviewPrice
  ∧ isPotentialPrice deepReview (deepPriceRef, data reviewPrice) = false
  ∧ Earlier.isPotentialPrice deepReview (deepPriceRef, data reviewPrice) = true.
Proof. repeat split; vm_compute; reflexivity. Qed.

(** The earlier URL resolution hands out a data URI that is not a gif. *)
Remark earlier_url_keeps_data_uri :
  actualImageUrl inlinePicture = lit "N/A"
  ∧ Earlier.actualImageUrl inlinePicture = lit "data:image/png;base64,iVBORw0KGgo=".
Proof. split; vm_compute; reflexivity. Qed.

(** ** Further facts about the page model *)

(** The listed descendants lie strictly below the context node, and no
    node is listed twice. *)
Lemma walkChildren_below (ctx : NodeRef) (cs : list Element) :
  Forall (λ c, ∀ ctx' x, x ∈ descendants ctx' c → ∃ p, p ≠ [] ∧ x.1 = p ++ ctx') cs →
  ∀ k x, x ∈ walkChildren ctx k cs → ∃ p i, x.1 = p ++ i :: ctx ∧ (k ≤ i)%nat.
Proof.
  induction cs as [|c cs IHcs]; intros IH k x Hin; simpl in Hin.
  - by apply elem_of_nil in Hin.
  - apply Forall_cons in IH as [IHc IHrest].
    rewrite elem_of_cons, elem_of_app in Hin.
    destruct Hin as [->|[Hin|Hin]].
    + by exists [], k.
    + destruct (IHc _ _ Hin) as (p & _ & ->). by exists p, k.
    + destruct (IHcs IHrest (S k) x Hin) as (p & i & -> & Hi).
      exists p, i. split; [done | lia].
Qed.

Lemma descendants_below (e : Element) :
  ∀ ctx x, x ∈ descendants ctx e → ∃ p, p ≠ [] ∧ x.1 = p ++ ctx.
Proof.
  induction e as [d cs IH] using Element_forall_ind. intros ctx x.
  rewrite descendants_unfold. intros Hin.
  destruct (walkChildren_below ctx cs IH 0%nat x Hin) as (p & i & -> & _).
  exists (p ++ [i]). split; [by destruct p | by rewrite <- app_assoc].
Qed.

Lemma path_index_inj (p p' : list nat) (i j : nat) (ctx : NodeRef) :
  p ++ i :: ctx = p' ++ j :: ctx → i = j.
Proof.
  intros Heq.
  assert ((p ++ [i]) ++ ctx = (p' ++ [j]) ++ ctx) as Heq'
    by (by rewrite <- !app_assoc).
  apply app_inv_tail in Heq'. by apply app_inj_tail in Heq' as [_ ?].
Qed.

Lemma walkChildren_NoDup (ctx : NodeRef) (cs : list Element) :
  Forall (λ c, ∀ ctx', NoDup (List.map fst (descendants ctx' c))) cs →
  ∀ k, NoDup (List.map fst (walkChildren ctx k cs)).
Proof.
  induction cs as [|c cs IHcs]; intros IH k; simpl; [constructor|].
  apply Forall_cons in IH as [IHc IHrest].
  rewrite map_app. apply NoDup_cons. split.
  - rewrite elem_of_app. intros [Hin|Hin].
    + apply list_elem_of_fmap in Hin as (x & Hx & Hin).
      destruct (descendants_below c _ _ Hin) as (p & Hp & Hpath).
      pose proof (eq_trans Hx Hpath) as Heq. apply (f_equal length) in Heq.
      rewrite length_app in Heq. destruct p; [done | simpl in Heq; lia].
    + apply list_elem_of_fmap in Hin as (x & Hx & Hin).
      destruct (walkChildren_below ctx cs) with (k := S k) (x := x)
        as (p & i & Hpath & Hi); [|done|].
      { apply Forall_forall. intros c' _ ctx' y. apply descendants_below. }
      pose proof (eq_trans Hx Hpath) as Heq.
      apply (path_index_inj [] p k i ctx) in Heq. lia.
  - apply NoDup_app. split; [apply IHc|]. split; [|by apply IHcs].
    intros r Hin Hin'.
    apply list_elem_of_fmap in Hin as (x & -> & Hin).
    apply list_elem_of_fmap in Hin' as (y & Hxy & Hin').
    destruct (descendants_below c _ _ Hin) as (p & _ & Hpath).
    destruct (walkChildren_below ctx cs) with (k := S k) (x := y)
      as (p' & i & Hpath' & Hi); [|done|].
    { apply Forall_forall. intros c' _ ctx' z. apply descendants_below. }
    pose proof (eq_trans (eq_sym Hpath) (eq_trans Hxy Hpath')) as Heq.
    apply path_index_inj in Heq. lia.
Qed.

Lemma descendants_NoDup (e : Element) :
  ∀ ctx, NoDup (List.map fst (descendants ctx e)).
Proof.
  induction e as [d cs IH] using Element_forall_ind. intros ctx.
  rewrite descendants_unfold. by apply walkChildren_NoDup.
Qed.

Lemma filter_sublist {A} (f : A → bool) (l : list A) :
  List.filter f l `sublist_of` l.
Proof.
  induction l as [|x l IH]; simpl; [constructor|].
  destruct (f x); by constructor.
Qed.

Lemma map_sublist {A B} (g : A → B) (l1 l2 : list A) :
  l1 `sublist_of` l2 → List.map g l1 `sublist_of` List.map g l2.
Proof. induction 1; simpl; by constructor. Qed.

Lemma querySelectorAll_below root ctx sel x :
  x ∈ querySelectorAll root ctx sel →
  matches sel x.2 = true
  ∧ (∃ p, p ≠ [] ∧ x.1 = p ++ ctx)
  ∧ ∃ e, get root x.1 = Some e ∧ data e = x.2.
Proof.
  unfold querySelectorAll. destruct (get root ctx) as [e|] eqn:He.
  - intros Hin%list_elem_of_In. apply filter_In in Hin as [Hin Hm].
    apply list_elem_of_In in Hin. split; [done|]. split.
    + by eapply descendants_below.
    + by eapply descendants_get.
  - intros Hin. by apply elem_of_nil in Hin.
Qed.

(** ** Facts about the matcher *)

Lemma hasUnit_app (kind : N → bool) (a b : jsstring) :
  hasUnit kind (a ++ b) = hasUnit kind a || hasUnit kind b.
Proof. apply existsb_app. Qed.

Section Consumption.

Variable kindOfClass : cls → bool.
Variable kind : N → bool.
Variable i : bool.
Hypothesis class_kind :
  ∀ m c, kindOfClass m = true → clsMatches i m c = true → kind c = true.

Lemma repeatMatcher_consumes (demands : bool)
    (body : option N → jsstring → continuation → bool) :
  (∀ prev s k, body prev s k = true → Consumes kind demands s k) →
  ∀ budget lo prev s k,
    repeatMatcher body lo budget prev s k = true →
    Consumes kind ((0 <? lo)%nat && demands) s k.
Proof.
  intros Hbody. induction budget as [|budget IH]; intros lo prev s k; simpl.
  - destruct lo; [|done]. intros Hk. exists [], s, prev. by repeat split.
  - destruct (body prev s _) eqn:Hb.
    + intros _. apply Hbody in Hb as (w1 & s1 & p1 & -> & Hcont & Hw1).
      destruct lo as [|lo].
      * destruct (length s1 =? length (w1 ++ s1))%nat; [done|].
        apply IH in Hcont as (w2 & s2 & p2 & -> & Hk & _).
        exists (w1 ++ w2), s2, p2. rewrite <- app_assoc. by repeat split.
      * apply IH in Hcont as (w2 & s2 & p2 & -> & Hk & _).
        exists (w1 ++ w2), s2, p2. rewrite <- app_assoc. repeat split; [done|].
        simpl. intros Hd. rewrite hasUnit_app, (Hw1 Hd). done.
    + destruct lo; [|done]. intros Hk. exists [], s, prev. by repeat split.
Qed.

Lemma matcher_consumes (r : regex) :
  ∀ prev s k,
    matcher i r prev s k = true → Consumes kind (consumesClass kindOfClass r) s k.
Proof.
  induction r as [|cs|r1 IH1 r2 IH2|r1 IH1 r2 IH2|lo hi r IH| | |];
    intros prev s k; cbn [matcher consumesClass].
  - intros Hk. exists [], s, prev. by repeat split.
  - destruct s as [|c s']; [done|].
    destruct (existsb _ cs) eqn:Hex; [|done]. intros Hk.
    exists [c], s', (Some c). repeat split; [done|].
    intros Hall. apply existsb_exists in Hex as (m & Hm & Hc).
    rewrite forallb_forall in Hall. specialize (Hall m Hm).
    unfold hasUnit. cbn [existsb]. by rewrite (class_kind m c Hall Hc).
  - intros H. apply IH1 in H as (w1 & s1 & p1 & -> & H & Hw1).
    apply IH2 in H as (w2 & s2 & p2 & -> & Hk & Hw2).
    exists (w1 ++ w2), s2, p2. rewrite <- app_assoc. repeat split; [done|].
    rewrite hasUnit_app. intros [Hd|Hd]%orb_prop.
    + by rewrite (Hw1 Hd).
    + by rewrite (Hw2 Hd), orb_true_r.
  - destruct (matcher i r1 prev s k) eqn:H1.
    + intros _. apply IH1 in H1 as (w & s' & p' & -> & Hk & Hw).
      exists w, s', p'. repeat split; [done|]. by intros [Hd _]%andb_prop; apply Hw.
    + intros H2. apply IH2 in H2 as (w & s' & p' & -> & Hk & Hw).
      exists w, s', p'. repeat split; [done|]. by intros [_ Hd]%andb_prop; apply Hw.
  - by apply repeatMatcher_consumes.
  - destruct prev; [done|]. intros Hk. exists [], s, None. by repeat split.
  - destruct s; [|done]. intros Hk. exists [], [], prev. by repeat split.
  - destruct (atWordBoundary prev s); [|done]. intros Hk.
    exists [], s, prev. by repeat split.
Qed.

Lemma searchFrom_consumes (r : regex) :
  consumesClass kindOfClass r = true →
  ∀ s prev, searchFrom i r prev s = true → hasUnit kind s = true.
Proof.
  intros Hr. induction s as [|c s IH]; intros prev; cbn [searchFrom].
  - destruct (matcher i r prev [] _) eqn:Hm; [|done]. intros _.
    apply matcher_consumes in Hm as (w & s' & p' & Hs & _ & Hw).
    rewrite Hs, hasUnit_app, (Hw Hr). done.
  - destruct (matcher i r prev (c :: s) _) eqn:Hm.
    + intros _. apply matcher_consumes in Hm as (w & s' & p' & Hs & _ & Hw).
      rewrite Hs, hasUnit_app, (Hw Hr). done.
    + intros H. apply IH in H. change (c :: s) with ([c] ++ s).
      by rewrite hasUnit_app, H, orb_true_r.
Qed.

End Consumption.

Lemma digit_class_matches (i : bool) (m : cls) (c : N) :
  isDigitClass m = true → clsMatches i m c = true → isDigit c = true.
Proof. by destruct m. Qed.

(** A letter only agrees with a letter under the [i] flag, and a
    currency sign only with itself. *)
Lemma currency_class_matches (i : bool) (m : cls) (c : N) :
  isCurrencyClass m = true → clsMatches i m c = true → isCurrencyUnit c = true.
Proof.
  destruct m as [p| |]; [|done|done]. cbn [isCurrencyClass clsMatches].
  intros Hp Hm.
  assert (canonicalize p = canonicalize c ∨ p = c) as Hcase.
  { destruct i; [left | right]; by apply N.eqb_eq. }
  clear Hm. destruct Hcase as [Hcanon|<-]; [|done].
  destruct (isLower c) eqn:Hc.
  { unfold isCurrencyUnit. by rewrite Hc, orb_true_r. }
  unfold canonicalize in Hcanon. rewrite Hc in Hcanon.
  destruct (isLower p) eqn:Hlow; [|by subst].
  assert (isUpper c = true) as Hup.
  { unfold isLower in Hlow. unfold isUpper.
    apply andb_prop in Hlow as [H1%N.leb_le H2%N.leb_le].
    apply andb_true_intro. split; apply N.leb_le; lia. }
  unfold isCurrencyUnit. by rewrite Hup, orb_true_r.
Qed.

(** X1 (a price needs a digit and a currency).  Whatever text the price
    pattern accepts holds a digit, and a currency sign or a letter.
    Hence the trimmed text of a price candidate without a semantic price
    attribute always holds both. *)
Theorem price_pattern_needs_digit_and_currency (root : Element) :
  (∀ s, test priceRegex s = true → hasDigit s = true ∧ hasCurrency s = true)
  ∧ (∀ s, test Earlier.priceRegex s = true → hasDigit s = true ∧ hasCurrency s = true)
  ∧ (∀ el, el ∈ potentialPriceElements root →
       hasSemanticPriceAttr el.2 = false →
       hasDigit (trim (innerText el.2)) = true
       ∧ hasCurrency (trim (innerText el.2)) = true).
Proof.
  assert (∀ s, test priceRegex s = true → hasDigit s = true ∧ hasCurrency s = true)
    as Hprice.
  { intros s Hs. split.
    - apply (searchFrom_consumes isDigitClass isDigit true (digit_class_matches true)
               (pattern priceRegex) ltac:(vm_compute; reflexivity) s None Hs).
    - apply (searchFrom_consumes isCurrencyClass isCurrencyUnit true
               (currency_class_matches true)
               (pattern priceRegex) ltac:(vm_compute; reflexivity) s None Hs). }
  split; [done|]. split.
  { intros s Hs. split.
    - apply (searchFrom_consumes isDigitClass isDigit true (digit_class_matches true)
               (pattern Earlier.priceRegex) ltac:(vm_compute; reflexivity) s None Hs).
    - apply (searchFrom_consumes isCurrencyClass isCurrencyUnit true
               (currency_class_matches true)
               (pattern Earlier.priceRegex) ltac:(vm_compute; reflexivity) s None Hs). }
  intros el [Hok _]%candidate_passes Hattr. apply Hprice.
  unfold isPotentialPrice, classifyText in Hok. rewrite Hattr in Hok.
  repeat match type of Hok with
         | context [if ?b then _ else _] => destruct b eqn:?; try done
         end.
Qed.

Lemma price_pattern_needs_digit_and_currency_shop :
  hasDigit (lit "$12.99") = true
  ∧ hasCurrency (trim (innerText (data mousePrice))) = true.
Proof.
  destruct (price_pattern_needs_digit_and_currency shop) as (Hprice & _ & Hcand). split.
  - apply Hprice. vm_compute; reflexivity.
  - apply (Hcand (mousePriceRef, data mousePrice)); [|vm_compute; reflexivity].
    apply (list_elem_of_lookup_2 _ 0%nat). vm_compute; reflexivity.
Defined.

Lemma anchored_never_matches_later (i : bool) (r : regex) (s : jsstring) (c : N) :
  searchFrom i (Seq Bol r) (Some c) s = false.
Proof. revert c. induction s as [|c' s IH]; intros c; simpl; [done | apply IH]. Qed.

Lemma digits_then_end (body : option N → jsstring → continuation → bool)
    (kend : continuation) :
  (∀ prev k, body prev [] k = false) →
  (∀ prev c s k, body prev (c :: s) k = if isDigit c then k (Some c) s else false) →
  (∀ prev s, kend prev s = if s is [] then true else false) →
  ∀ budget lo prev s,
    (lo ≤ 1)%nat → (length s < budget)%nat →
    repeatMatcher body lo budget prev s kend
    = forallb isDigit s && (lo <=? length s)%nat.
Proof.
  intros Hnil Hcons Hend.
  induction budget as [|budget IH]; intros lo prev s Hlo Hlen; [lia|].
  cbn [repeatMatcher]. destruct s as [|c s'].
  - rewrite Hnil, Hend. by destruct lo.
  - rewrite Hcons, Hend. cbn [length forallb].
    assert ((lo <=? S (length s'))%nat = true) as -> by (apply Nat.leb_le; lia).
    rewrite andb_true_r.
    destruct (isDigit c); cbn [andb]; [|by destruct lo].
    assert (repeatMatcher body 0 budget (Some c) s' kend = forallb isDigit s') as Hrest.
    { rewrite IH; [|lia|simpl in Hlen; lia]. simpl. by rewrite andb_true_r. }
    destruct lo as [|lo].
    + assert ((length s' =? S (length s'))%nat = false) as ->
        by (apply Nat.eqb_neq; lia).
      rewrite Hrest. by destruct (forallb isDigit s').
    + assert (lo = 0%nat) as -> by lia. cbn [Nat.pred].
      rewrite Hrest. by destruct (forallb isDigit s').
Qed.

(** X2 (purely numeric text).  The test [/^\d+$/] holds exactly for the
    non-empty texts made of ASCII digits only; in particular no such text
    is ever taken as a title. *)
Theorem digits_only_exactly (s : jsstring) :
  test digitsOnly s = nonEmpty s && forallb isDigit s
  ∧ ∀ priceElement ref d,
      trim (innerText d) = s → nonEmpty s && forallb isDigit s = true →
      isValidTitle priceElement (ref, d) = false.
Proof.
  assert (test digitsOnly s = nonEmpty s && forallb isDigit s) as Htest.
  { assert (matcher false (Seq Bol (Seq (Regex.plus digit) (Seq Eol Empty))) None s
              (λ _ _, true) = forallb isDigit s && (1 <=? length s)%nat) as Hm.
    { unfold Regex.plus. cbn [matcher]. apply digits_then_end; try lia.
      - done.
      - intros prev c s0 k. cbn. by rewrite orb_false_r.
      - intros prev s0. cbn. by destruct s0. }
    unfold test, digitsOnly. cbn [pattern Regex.ignoreCase seqs foldr].
    destruct s as [|c s']; cbn [searchFrom]; rewrite Hm; [done|].
    rewrite anchored_never_matches_later. cbn [length nonEmpty].
    rewrite andb_true_r. by destruct (forallb isDigit (c :: s')). }
  split; [done|]. intros priceElement ref d Ht Hd.
  unfold isValidTitle. cbn [fst snd]. rewrite Ht, Htest, Hd. cbn [negb].
  by rewrite !andb_false_r.
Qed.

Lemma digits_only_exactly_year :
  isValidTitle mousePriceRef (mouseHeadingRef, label (lit " 2024 ")) = false.
Proof.
  destruct (digits_only_exactly (lit "2024")) as [_ Htitle].
  apply Htitle; vm_compute; reflexivity.
Defined.

(** ** Further facts about the scanner and the pass *)

Lemma scanned_NoDup (root : Element) :
  NoDup (List.map fst (([], data root) :: descendants [] root)).
Proof.
  simpl. apply NoDup_cons. split; [|apply descendants_NoDup].
  intros Hin. apply list_elem_of_fmap in Hin as (x & Hx & Hin).
  destruct (descendants_below root _ _ Hin) as (p & Hp & Hpath).
  pose proof (eq_trans Hx Hpath) as Heq. rewrite app_nil_r in Heq. by subst p.
Qed.

Lemma closest_None root sel ref a ea :
  closest root sel ref = None → is_Some (get root ref) →
  a `suffix_of` ref → get root a = Some ea → matches sel (data ea) = false.
Proof.
  intros Hnone Href Hsuf Ha. destruct (matches sel (data ea)) eqn:Hm; [|done].
  destruct (closest_complete root sel ref a ea Href Hsuf Ha Hm) as [c Hc]. congruence.
Qed.

Lemma candidates_sublist (root : Element) :
  potentialPriceElements root `sublist_of` (([], data root) :: descendants [] root).
Proof.
  unfold potentialPriceElements, documentQuerySelectorAll.
  etrans; apply filter_sublist.
Qed.

Lemma candidates_NoDup (root : Element) :
  NoDup (List.map fst (potentialPriceElements root)).
Proof.
  eapply sublist_NoDup; [apply scanned_NoDup | apply map_sublist, candidates_sublist].
Qed.

(** X3 (the candidate scan).  The price candidates are scanned elements
    in document order (the root element first), none of them twice.  Each
    one matches the scan selector, is visible with a non-zero box, lies
    in no review container (neither it nor any ancestor matches a
    review-container selector), carries no review attribute, has a text
    outside the review pattern, and either has a text inside the price
    pattern or carries a semantic price attribute. *)
Theorem candidates_are_a_clean_scan (root : Element) :
  potentialPriceElements root `sublist_of` (([], data root) :: descendants [] root)
  ∧ NoDup (List.map fst (potentialPriceElements root))
  ∧ ∀ el, el ∈ potentialPriceElements root →
      matches priceSelectors el.2 = true
      ∧ offsetParentIsNull el.2 = false
      ∧ offsetWidth el.2 ≠ 0 ∧ offsetHeight el.2 ≠ 0
      ∧ (∀ a ea, a `suffix_of` el.1 → get root a = Some ea →
           matches reviewContainerSelectors (data ea) = false)
      ∧ isReviewElement el.2 = false
      ∧ test reviewPattern (trim (innerText el.2)) = false
      ∧ (test priceRegex (trim (innerText el.2)) = true
         ∨ hasSemanticPriceAttr el.2 = true).
Proof.
  split; [apply candidates_sublist|]. split; [apply candidates_NoDup|].
  intros [ref d] Hel. pose proof Hel as Hin%list_elem_of_In.
  unfold potentialPriceElements in Hin. apply filter_In in Hin as [Hscan Hok].
  unfold documentQuerySelectorAll in Hscan. apply filter_In in Hscan as [_ Hsel].
  destruct (candidate_passes root _ Hel) as (_ & e & He & Hdata).
  cbn [fst snd] in *. split; [done|].
  unfold isPotentialPrice, classifyText in Hok. cbn [fst snd] in Hok. cbv zeta in Hok.
  destruct (offsetParentIsNull d); [by simpl in Hok|]. split; [done|].
  destruct (Z.eqb_spec (offsetWidth d) 0); [by simpl in Hok|]. split; [done|].
  destruct (Z.eqb_spec (offsetHeight d) 0); [by simpl in Hok|]. split; [done|].
  cbn [orb] in Hok. destruct (_ || _); [done|].
  destruct (closest root reviewContainerSelectors ref) eqn:Hcl; [done|].
  split. { intros a ea. by eapply closest_None. }
  destruct (isReviewElement d); [done|]. split; [done|].
  destruct (test reviewPattern _); [done|]. split; [done|].
  destruct (test priceRegex _); [by left | by right].
Qed.

Lemma candidates_are_a_clean_scan_shop :
  matches priceSelectors (data mousePrice) = true
  ∧ matches reviewContainerSelectors (data mouseCard) = false.
Proof.
  destruct (candidates_are_a_clean_scan shop) as (_ & _ & Hcand).
  destruct (Hcand (mousePriceRef, data mousePrice)) as (Hsel & _ & _ & _ & Hrev & _).
  { apply (list_elem_of_lookup_2 _ 0%nat). vm_compute; reflexivity. }
  split; [exact Hsel|].
  apply (Hrev mouseCardRef mouseCard); [by exists [1; 0]%nat | reflexivity].
Defined.


Lemma findImage_Some root ctx img :
  findImage root ctx = Some img →
  img ∈ querySelectorAll root ctx imgSelectors ∧ isProductImage img.2 = true.
Proof.
  unfold findImage. intros [Hin Hok]%find_some. split; [by apply list_elem_of_In | done].
Qed.

Lemma findTitle_Some root pe ctx t :
  findTitle root pe ctx = Some t →
  t ∈ querySelectorAll root ctx titleSelectors ∧ isValidTitle pe t = true.
Proof.
  unfold findTitle. intros (earlier & later & Heq & Hok & _)%scanTitles_Some.
  split; [|done]. rewrite Heq. apply elem_of_app. right. apply elem_of_cons. by left.
Qed.




Lemma afterFallback_shape (u : option jsstring) :
  default [] (afterFallback u) = lit "N/A"
  ∨ (nonEmpty (default [] (afterFallback u)) = true
     ∧ startsWith (default [] (afterFallback u)) (lit "data:") = false).
Proof.
  unfold afterFallback, falsy.
  destruct u as [[|c v]|]; cbn [truthy negb orb on default];
    [by left| |by left].
  destruct (startsWith (c :: v) (lit "data:")) eqn:Hs; cbn [default]; [by left|].
  right. by split.
Qed.

(** X5 (what an image URL can be).  The URL put into a record is either
    the sentinel "N/A" or a non-empty string that does not begin with
    "data:". *)
Theorem image_url_is_sentinel_or_usable (img : ElemData) :
  actualImageUrl img = lit "N/A"
  ∨ (nonEmpty (actualImageUrl img) = true
     ∧ startsWith (actualImageUrl img) (lit "data:") = false).
Proof. unfold actualImageUrl. apply afterFallback_shape. Qed.

(** X6 (title and image of a record).  The title of every record is the
    trimmed text of its title node: 5 to 200 characters, outside the
    price pattern and the review pattern and not purely numeric.  Its
    image URL is the one resolved from its image node, hence the
    sentinel or a non-empty string that is no data URI. *)
Theorem record_title_and_image (root : Element) :
  (∀ d, d ∈ detections (finalState (detect root)) →
     ∃ et ei,
       get root (d_title d) = Some et ∧ get root (d_image d) = Some ei
       ∧ Product.title (d_record d) = trim (innerText (data et))
       ∧ Product.imageUrl (d_record d) = actualImageUrl (data ei))
  ∧ (∀ r, r ∈ returned (detect root) →
       (5 ≤ length (Product.title r) ≤ 200)%nat
       ∧ test priceRegex (Product.title r) = false
       ∧ test digitsOnly (Product.title r) = false
       ∧ test reviewPattern (Product.title r) = false
       ∧ (Product.imageUrl r = lit "N/A"
          ∨ (nonEmpty (Product.imageUrl r) = true
             ∧ startsWith (Product.imageUrl r) (lit "data:") = false))).
Proof.
  assert (∀ d, d ∈ detections (finalState (detect root)) →
            ∃ pe claimed f,
              d = detectionOf f pe
              ∧ qualifies root claimed pe.1 (productContainer f) = Some f) as Horigin.
  { intros d Hd.
    destruct (FromCandidates_run root (potentialPriceElements root) d Hd)
      as (pe & claimed & f & _ & Hc & ->).
    apply climb_Some in Hc as [Hq _]. by exists pe, claimed, f. }
  split.
  - intros d Hd. destruct (Horigin d Hd) as (pe & claimed & f & -> & Hq).
    apply qualifies_Some in Hq as (_ & _ & _ & Himg & Htitle).
    apply findImage_Some in Himg as [Himg _].
    apply querySelectorAll_below in Himg as (_ & _ & ei & Hei & Hdi).
    apply findTitle_Some in Htitle as [Htitle _].
    apply querySelectorAll_below in Htitle as (_ & _ & et & Het & Hdt).
    exists et, ei. cbn [detectionOf d_title d_image d_record Product.title Product.imageUrl].
    by rewrite Hdi, Hdt.
  - intros r Hr. unfold detect, returned, results in Hr. cbn [finalState] in Hr.
    apply list_elem_of_fmap in Hr as (d & -> & Hd).
    destruct (Horigin d Hd) as (pe & claimed & f & -> & Hq).
    apply qualifies_Some in Hq as (_ & _ & _ & _ & Htitle).
    apply findTitle_Some in Htitle as [_ Hvalid].
    apply isValidTitle_spec in Hvalid as (Hlen & _ & Hp & Hd' & Hr' & _).
    cbn [detectionOf d_record Product.title Product.imageUrl].
    repeat split; try done; try lia. unfold actualImageUrl. apply afterFallback_shape.
Qed.

Lemma record_title_and_image_shop :
  (5 ≤ length (Product.title (d_record mouseDetection)) ≤ 200)%nat
  ∧ test priceRegex (Product.title (d_record mouseDetection)) = false.
Proof.
  destruct (record_title_and_image shop) as [_ Hrec].
  destruct (Hrec (d_record mouseDetection)) as (Hlen & Hp & _); [|by split].
  apply (list_elem_of_lookup_2 _ 0%nat). vm_compute; reflexivity.
Defined.

Lemma run_prices root cs :
  ∀ st, ∃ added,
    List.map d_price (detections (runCandidates root st cs))
      = List.map d_price (detections st) ++ added
    ∧ added `sublist_of` List.map fst cs.
Proof.
  induction cs as [|pe cs IH]; intros st.
  - exists []. simpl. by rewrite app_nil_r.
  - simpl. destruct (IH (processPrice root st pe)) as (added & Heq & Hsub).
    destruct (processPrice_cases root st pe) as [[_ Hst]|(f & _ & Hd & _)].
    + rewrite Hst in Heq |- *. exists added. split; [done | by constructor].
    + exists (pe.1 :: added). split; [|by constructor].
      rewrite Heq, Hd, map_app, <- app_assoc. done.
Qed.

(** X7 (order and number of records).  The price nodes of the records
    follow one another in the order of the candidates, that is in
    document order; no price node backs two records; there are at most as
    many records as candidates; and when the pass ends the claimed set
    holds exactly one container per record. *)
Theorem records_follow_candidates (root : Element) :
  List.map d_price (detections (finalState (detect root)))
    `sublist_of` List.map fst (potentialPriceElements root)
  ∧ NoDup (List.map d_price (detections (finalState (detect root))))
  ∧ (length (returned (detect root)) ≤ length (potentialPriceElements root))%nat
  ∧ size (processedContainers (finalState (detect root)))
    = length (returned (detect root)).
Proof.
  destruct (run_prices root (potentialPriceElements root) initialState)
    as (added & Heq & Hsub).
  simpl in Heq. assert (List.map d_price (detections (finalState (detect root)))
            `sublist_of` List.map fst (potentialPriceElements root)) as Hsublist.
  { unfold detect. cbn [finalState]. by rewrite Heq. }
  split; [done|]. split.
  { eapply sublist_NoDup; [apply candidates_NoDup | exact Hsublist]. }
  split.
  { apply sublist_length in Hsublist. rewrite !length_map in Hsublist.
    unfold detect, returned, results. cbn [finalState]. by rewrite length_map. }
  destruct (Consistent_run root initialState (potentialPriceElements root)
              Consistent_initial) as [Hnd Hset].
  unfold detect, returned, results. cbn [finalState]. rewrite length_map.
  rewrite <- (length_map d_container), <- (size_list_to_set (C := gset NodeRef)); [|done].
  f_equal. apply set_eq. intros c. by rewrite elem_of_list_to_set, Hset.
Qed.

(** ** Facts about the popup *)

Lemma cut_at_line_feed (a b r r' : jsstring) :
  singleLine a → singleLine b →
  a ++ 10%N :: r = b ++ 10%N :: r' → a = b ∧ r = r'.
Proof.
  unfold singleLine. revert b. induction a as [|x a IH]; intros [|y b] Ha Hb Heq.
  - by injection Heq as ->.
  - injection Heq as <- _. exfalso. apply Hb, elem_of_cons. by left.
  - injection Heq as -> _. exfalso. apply Ha, elem_of_cons. by left.
  - injection Heq as -> Heq. destruct (IH b) as [-> ->]; try done.
    + intros H. apply Ha, elem_of_cons. by right.
    + intros H. apply Hb, elem_of_cons. by right.
Qed.

Lemma reportEntry_inj (p q : ProductRecord) (r r' : jsstring) :
  SingleLineRecord p → SingleLineRecord q →
  Popup.reportEntry p ++ r = Popup.reportEntry q ++ r' → p = q ∧ r = r'.
Proof.
  intros (Ht & Hi & Hp) (Ht' & Hi' & Hp'). unfold Popup.reportEntry, Popup.newline.
  rewrite <- !app_assoc. cbn [app].
  intros Heq%app_inv_head.
  apply cut_at_line_feed in Heq as [Htitle Heq]; [|done|done].
  apply app_inv_head in Heq.
  apply cut_at_line_feed in Heq as [Himage Heq]; [|done|done].
  apply app_inv_head in Heq.
  apply cut_at_line_feed in Heq as [Hprice Heq]; [|done|done].
  injection Heq as ->. split; [|done].
  destruct p, q. cbn in *. by subst.
Qed.

(** X8 (the report can be read back).  When no title, image URL or price
    holds a line feed, the downloaded text determines the list of
    records: two such lists with the same text are equal. *)
Theorem report_determines_records (ps qs : list ProductRecord) :
  Forall SingleLineRecord ps → Forall SingleLineRecord qs →
  fileContent ps = fileContent qs → ps = qs.
Proof.
  unfold fileContent. intros Hps. revert qs.
  induction Hps as [|p ps Hp _ IH]; intros qs Hqs Heq.
  - destruct qs as [|q qs]; [done|]. simpl in Heq. discriminate.
  - destruct Hqs as [|q qs Hq Hqs]; [simpl in Heq; discriminate|].
    simpl in Heq. apply reportEntry_inj in Heq as [-> Heq]; [|done|done].
    f_equal. by apply IH.
Qed.

Lemma report_determines_records_shop :
  [d_record mouseDetection] = [d_record mouseDetection].
Proof.
  apply report_determines_records; [| |reflexivity];
    (apply Forall_cons; split; [|apply Forall_nil_2]);
    (repeat split; unfold singleLine; vm_compute; intros H;
     repeat (apply elem_of_cons in H as [H|H]; [discriminate H|]);
     by apply elem_of_nil in H).
Defined.

(** Without that condition the text is ambiguous: a title that holds
    line feeds can imitate the end of one record and the start of the
    next. *)
Example report_ambiguous_with_line_feeds :
  fileContent mergedReport = fileContent separateReport
  ∧ mergedReport ≠ separateReport.
Proof. split; [vm_compute; reflexivity | discriminate]. Qed.

Lemma showNat_length_results (st : PassState) :
  length (results st) = length (detections st).
Proof. unfold results. apply length_map. Qed.

(** X9 (pass and popup agree).  Fed with the array a pass returns, the
    popup starts a download exactly when the page notification is not
    the error one, that is exactly when the pass found a record.  The
    downloaded text is then the report of the returned records, and the
    count in the popup's status line is the one in the page
    notification. *)
Theorem popup_agrees_with_pass (root : Element) (lastError : option jsstring) :
  let outcome :=
    Popup.onInjection (inr [ {| Popup.result := Some (returned (detect root)) |} ])
      lastError in
  let n := length (detections (finalState (detect root))) in
  (Popup.download outcome = None ↔ returned (detect root) = [])
  ∧ (Popup.download outcome = None ↔ type (notification (detect root)) = Error)
  ∧ (returned (detect root) ≠ [] →
       Popup.download outcome = Some (fileContent (returned (detect root)))
       ∧ message (notification (detect root))
         = showNat n ++ lit " product(s) detected and highlighted!"
       ∧ (lastError = None →
            Popup.statusMessage outcome
            = lit "Downloaded " ++ showNat n ++ lit " product(s)!")).
Proof.
  intros outcome n. subst outcome n.
  unfold Popup.onInjection, Popup.allProducts, detect, notify, fileContent.
  cbn [returned notification finalState List.flat_map Popup.result default].
  rewrite app_nil_r, <- showNat_length_results.
  destruct (results _) as [|r rs];
    cbn [length Nat.eqb Nat.ltb Nat.leb Popup.download Popup.statusMessage message type].
  - repeat split; done.
  - repeat split; try done. by intros ->.
Qed.

Lemma popup_agrees_with_pass_shop :
  Popup.statusMessage
    (Popup.onInjection (inr [ {| Popup.result := Some (returned (detect shop)) |} ]) None)
  = lit "Downloaded 3 product(s)!".
Proof.
  destruct (popup_agrees_with_pass shop None) as (_ & _ & Hfound).
  destruct Hfound as (_ & _ & Hstatus); [vm_compute; discriminate|].
  rewrite Hstatus; [vm_compute; reflexivity | reflexivity].
Defined.

Lemma startsWith_app (p x : jsstring) : startsWith (p ++ x) p = true.
Proof.
  induction p as [|c p IH]; simpl; [by destruct x|]. rewrite N.eqb_refl. exact IH.
Qed.

Lemma allProducts_app (fs1 fs2 : list Popup.Frame) :
  Popup.allProducts (fs1 ++ fs2) = Popup.allProducts fs1 ++ Popup.allProducts fs2.
Proof. unfold Popup.allProducts. induction fs1; simpl; [done|]. by rewrite IHfs1, app_assoc. Qed.

(** X10 (what the popup downloads).  The popup never starts a download
    after a failed injection, and never downloads an empty text: a
    download happens exactly when some frame returned a record, and its
    text then begins with "Title: " and is the report of the records of
    all frames, in frame order, frames without a result counting for
    nothing. *)
Theorem popup_download_is_a_report (injection : jsstring + list Popup.Frame)
    (lastError : option jsstring) :
  (∀ content,
     Popup.download (Popup.onInjection injection lastError) = Some content ↔
     ∃ frames, injection = inr frames
               ∧ Popup.allProducts frames ≠ []
               ∧ content = fileContent (Popup.allProducts frames))
  ∧ (∀ content,
       Popup.download (Popup.onInjection injection lastError) = Some content →
       startsWith content (lit "Title: ") = true)
  ∧ (∀ fs1 fs2,
       Popup.allProducts (fs1 ++ {| Popup.result := None |} :: fs2)
       = Popup.allProducts fs1 ++ Popup.allProducts fs2).
Proof.
  assert (∀ content,
     Popup.download (Popup.onInjection injection lastError) = Some content ↔
     ∃ frames, injection = inr frames
               ∧ Popup.allProducts frames ≠ []
               ∧ content = fileContent (Popup.allProducts frames)) as Hiff.
  { intros content. unfold Popup.onInjection, fileContent.
    destruct injection as [msg|frames]; cbn.
    - split; [done|]. by intros (frames & ? & _).
    - destruct (Popup.allProducts frames) as [|p ps] eqn:Hall; cbn.
      + split; [done|]. intros (frames' & [= <-] & Hne & _). by rewrite Hall in Hne.
      + split.
        * intros [= <-]. exists frames. by rewrite Hall.
        * intros (frames' & [= <-] & _ & ->). by rewrite Hall. }
  split; [done|]. split.
  - intros content (frames & _ & Hne & ->)%Hiff.
    destruct (Popup.allProducts frames) as [|p ps]; [done|].
    unfold fileContent. cbn [List.flat_map]. unfold Popup.reportEntry.
    rewrite <- !app_assoc. apply startsWith_app.
  - intros fs1 fs2. by rewrite allProducts_app.
Qed.

Lemma popup_download_is_a_report_shop :
  startsWith (fileContent (returned (detect shop))) (lit "Title: ") = true.
Proof.
  destruct (popup_download_is_a_report
              (inr [ {| Popup.result := Some (returned (detect shop)) |} ]) None)
    as (_ & Hstart & _).
  apply Hstart. vm_compute; reflexivity.
Defined.

(** ** The two review-container tests *)

Lemma earlier_review_loop_sound root steps ref :
  Earlier.isInReviewContainer root steps (Some ref) = true →
  is_Some (closest root reviewContainerSelectors ref).
Proof.
  revert ref. induction steps as [|steps IH]; intros ref; [done|].
  cbn [Earlier.isInReviewContainer].
  destruct (get root ref) as [e|] eqn:He; [|done].
  destruct ref as [|i parent]; cbn [closest]; rewrite He;
    destruct (matches reviewContainerSelectors (data e)); try by eexists.
  - cbn [parentElement]. by destruct steps.
  - cbn [parentElement]. apply IH.
Qed.

Lemma earlier_review_loop_complete root steps ref :
  (length ref < steps)%nat →
  is_Some (closest root reviewContainerSelectors ref) →
  Earlier.isInReviewContainer root steps (Some ref) = true.
Proof.
  revert steps. induction ref as [|i parent IH]; intros steps Hlen;
    (destruct steps as [|steps]; [simpl in Hlen; lia|]);
    cbn [closest Earlier.isInReviewContainer].
  - destruct (get root []) as [e|]; [|by intros [? ?]].
    destruct (matches reviewContainerSelectors (data e)); [done | by intros [? ?]].
  - destruct (get root (i :: parent)) as [e|]; [|by intros [? ?]].
    destruct (matches reviewContainerSelectors (data e)); [done|].
    cbn [parentElement]. apply IH. simpl in Hlen. lia.
Qed.

(** X11 (the two review-container tests).  Whatever the earlier loop
    over the node and five ancestors rejects, [closest] rejects too; and
    for a node with at most five ancestors the two tests agree.  (Deeper
    nodes can pass the earlier test below a review container, see
    [earlier_review_test_bounded].) *)
Theorem review_tests_compared (root : Element) (ref : NodeRef) :
  (Earlier.isInReviewContainer root 6 (Some ref) = true →
   is_Some (closest root reviewContainerSelectors ref))
  ∧ ((length ref ≤ 5)%nat →
     is_Some (closest root reviewContainerSelectors ref) →
     Earlier.isInReviewContainer root 6 (Some ref) = true).
Proof.
  split; [apply earlier_review_loop_sound|].
  intros Hlen. apply earlier_review_loop_complete. lia.
Qed.

Lemma review_tests_compared_shop :
  is_Some (closest shop reviewContainerSelectors reviewPriceRef)
  ∧ Earlier.isInReviewContainer shop 6 (Some reviewPriceRef) = true.
Proof.
  destruct (review_tests_compared shop reviewPriceRef) as [Hsound Hcomplete].
  assert (is_Some (closest shop reviewContainerSelectors reviewPriceRef)) as Hc.
  { apply Hsound. vm_compute; reflexivity. }
  split; [exact Hc|]. apply Hcomplete; [simpl; lia | exact Hc].
Defined.

(** ** Facts about the source set *)

Lemma splitBy_pieces (f : N → bool) (s : jsstring) :
  ∀ w, w ∈ splitBy f s → ∀ c, c ∈ w → f c = false ∧ c ∈ s.
Proof.
  induction s as [|x s IH]; intros w Hw c Hc; simpl in Hw.
  - apply list_elem_of_singleton in Hw as ->. by apply elem_of_nil in Hc.
  - destruct (f x) eqn:Hx.
    + apply elem_of_cons in Hw as [->|Hw]; [by apply elem_of_nil in Hc|].
      destruct (IH w Hw c Hc). split; [done|]. apply elem_of_cons. by right.
    + destruct (splitBy f s) as [|w0 ws] eqn:Hs.
      * apply list_elem_of_singleton in Hw as ->.
        apply list_elem_of_singleton in Hc as ->. split; [done|]. apply elem_of_cons. by left.
      * apply elem_of_cons in Hw as [->|Hw].
        -- apply elem_of_cons in Hc as [->|Hc].
           ++ split; [done|]. apply elem_of_cons. by left.
           ++ destruct (IH w0) with (c := c) as [? ?]; [apply elem_of_cons; by left|done|].
              split; [done|]. apply elem_of_cons. by right.
        -- destruct (IH w) with (c := c) as [? ?]; [apply elem_of_cons; by right|done|].
           split; [done|]. apply elem_of_cons. by right.
Qed.

Lemma dropWhile_elem (f : N → bool) (s : jsstring) (c : N) :
  c ∈ dropWhile f s → c ∈ s.
Proof.
  induction s as [|x s IH]; simpl; [done|].
  destruct (f x); [|done]. intros H. apply elem_of_cons. right. by apply IH.
Qed.

Lemma trim_elem (s : jsstring) (c : N) : c ∈ trim s → c ∈ s.
Proof.
  unfold trim, trimEnd, trimStart. rewrite elem_of_reverse.
  intros H%dropWhile_elem. rewrite elem_of_reverse in H. by apply dropWhile_elem in H.
Qed.

Lemma last_elem {A} (l : list A) (d : A) : List.last l d = d ∨ List.last l d ∈ l.
Proof.
  induction l as [|x l IH]; [by left|]. destruct l as [|y l]; simpl.
  - right. apply elem_of_cons. by left.
  - destruct IH as [Hd|Hin]; [by left|]. right. apply elem_of_cons. by right.
Qed.

Lemma dropWhile_none (f : N → bool) (s : jsstring) :
  Forall (λ c, f c = false) s → dropWhile f s = s.
Proof. destruct 1 as [|c s Hc _]; simpl; [done|]. by rewrite Hc. Qed.

Lemma splitBy_none (f : N → bool) (s : jsstring) :
  Forall (λ c, f c = false) s → splitBy f s = [s].
Proof. induction 1 as [|c s Hc _ IH]; simpl; [done|]. by rewrite Hc, IH. Qed.

Lemma splitBy_nonempty (f : N → bool) (s : jsstring) : splitBy f s ≠ [].
Proof.
  destruct s as [|c s]; simpl; [done|]. destruct (f c); [done|].
  by destruct (splitBy f s).
Qed.

(** Cutting at a separator cuts the two sides apart. *)
Lemma splitBy_app_sep (f : N → bool) (a b : jsstring) (x : N) :
  f x = true → splitBy f (a ++ x :: b) = splitBy f a ++ splitBy f b.
Proof.
  intros Hx. induction a as [|c a IH]; simpl; [by rewrite Hx|].
  destruct (f c); [by rewrite IH|]. rewrite IH.
  pose proof (splitBy_nonempty f a) as Hne. by destruct (splitBy f a).
Qed.

Lemma splitBy_head (f : N → bool) (u t : jsstring) :
  Forall (λ c, f c = false) u →
  (t = [] ∨ ∃ c t', t = c :: t' ∧ f c = true) →
  List.hd [] (splitBy f (u ++ t)) = u.
Proof.
  intros Hu Ht. induction Hu as [|c u Hc _ IH]; simpl.
  - destruct Ht as [->|(c & t' & -> & Hc)]; simpl; [done | by rewrite Hc].
  - rewrite Hc. destruct (splitBy f (u ++ t)); simpl in *; by rewrite <- IH.
Qed.

Lemma dropWhile_all (f : N → bool) (ws r : jsstring) :
  Forall (λ c, f c = true) ws → dropWhile f (ws ++ r) = dropWhile f r.
Proof. induction 1 as [|c ws Hc _ IH]; simpl; [done|]. by rewrite Hc. Qed.

Lemma dropWhile_app_stop (f : N → bool) (a b : jsstring) (c : N) :
  f c = false → dropWhile f (a ++ c :: b) = dropWhile f a ++ c :: b.
Proof.
  intros Hc. induction a as [|x a IH]; simpl; [by rewrite Hc|].
  by destruct (f x).
Qed.

Lemma dropWhile_suffix (f : N → bool) (l : jsstring) : ∃ p, l = p ++ dropWhile f l.
Proof.
  induction l as [|x l [p IH]]; simpl; [by exists []|].
  destruct (f x); [|by exists []]. exists (x :: p). simpl. by rewrite <- IH.
Qed.

Lemma trimEnd_prefix (l : jsstring) : ∃ q, l = trimEnd l ++ q.
Proof.
  unfold trimEnd. destruct (dropWhile_suffix isSpace (reverse l)) as [p Hp].
  exists (reverse p). rewrite <- reverse_app, <- Hp. by rewrite reverse_involutive.
Qed.

Lemma trimEnd_after (u t : jsstring) :
  u ≠ [] → Forall (λ c, isSpace c = false) u → trimEnd (u ++ t) = u ++ trimEnd t.
Proof.
  intros Hne Hu. unfold trimEnd. rewrite reverse_app.
  destruct (reverse u) as [|c ru] eqn:Hru.
  { apply (f_equal reverse) in Hru. rewrite reverse_involutive in Hru. by subst. }
  assert (isSpace c = false) as Hc.
  { apply Forall_reverse in Hu. rewrite Hru in Hu. by apply Forall_inv in Hu. }
  rewrite dropWhile_app_stop, reverse_app, <- Hru, reverse_involutive; done.
Qed.

Lemma trim_candidate (ws url tail : jsstring) :
  Forall (λ c, isSpace c = true) ws → url ≠ [] →
  Forall (λ c, isSpace c = false) url →
  trim (ws ++ url ++ tail) = url ++ trimEnd tail.
Proof.
  intros Hws Hne Hurl. unfold trim, trimStart. rewrite dropWhile_all; [|done].
  destruct url as [|c url]; [done|]. cbn [app dropWhile].
  rewrite (Forall_inv Hurl). by apply (trimEnd_after (c :: url)).
Qed.

Lemma lastEntry_single (candidate : jsstring) :
  44%N ∉ candidate →
  lastEntry candidate = List.hd [] (split 32 (trim candidate)).
Proof.
  intros Hno. unfold lastEntry, split at 2. rewrite splitBy_none; [done|].
  apply Forall_forall. intros c Hc. apply N.eqb_neq. by intros <-.
Qed.

(** X12 (the entry taken from a source set).  The URL read from a source
    set holds neither a comma nor a space (U+0020) and is made of
    characters of the source set.  It is read from the last candidate,
    the text after the last comma.  When that candidate is a URL without
    white space, optionally preceded by white space and followed either
    by white space only or by a space and a descriptor, the URL alone is
    returned.  (A descriptor that follows the URL after a tab or a line
    feed is not cut off, see [descriptor_after_tab_stays].) *)
Theorem source_set_entry_shape :
  (∀ sourceSet c,
     c ∈ lastEntry sourceSet → c ≠ 44%N ∧ c ≠ 32%N ∧ c ∈ sourceSet)
  ∧ (∀ before candidate,
       44%N ∉ candidate →
       lastEntry (before ++ 44%N :: candidate) = lastEntry candidate)
  ∧ (∀ ws url tail,
       Forall (λ c, isSpace c = true) ws →
       url ≠ [] → Forall (λ c, isSpace c = false ∧ c ≠ 44%N) url →
       (Forall (λ c, isSpace c = true) tail
        ∨ ∃ descriptor, tail = 32%N :: descriptor ∧ 44%N ∉ descriptor) →
       lastEntry (ws ++ url ++ tail) = url).
Proof.
  split; [|split].
  - intros sourceSet c Hc. unfold lastEntry in Hc.
    destruct (last_elem (List.map (λ s, split 32 (trim s)) (split 44 sourceSet)) [])
      as [Hd|Hin].
    { rewrite Hd in Hc. by apply elem_of_nil in Hc. }
    apply list_elem_of_fmap in Hin as (part & Hparts & Hpart).
    rewrite Hparts in Hc.
    destruct (split 32 (trim part)) as [|w ws] eqn:Hsplit; [by apply elem_of_nil in Hc|].
    cbn [List.hd] in Hc.
    destruct (splitBy_pieces (N.eqb 32) (trim part) w) with (c := c) as [H32 Hin];
      [unfold split in Hsplit; rewrite Hsplit; apply elem_of_cons; by left | done |].
    apply trim_elem in Hin.
    destruct (splitBy_pieces (N.eqb 44) sourceSet part Hpart c Hin) as [H44 Hsrc].
    apply N.eqb_neq in H32, H44. by repeat split.
  - intros before candidate Hno. rewrite (lastEntry_single candidate Hno).
    unfold lastEntry, split at 2. rewrite splitBy_app_sep; [|done].
    rewrite (splitBy_none (N.eqb 44) candidate).
    2: { apply Forall_forall. intros c Hc. apply N.eqb_neq. by intros <-. }
    rewrite map_app. cbn [map]. by rewrite List.last_last.
  - intros ws url tail Hws Hne Hurl Htail.
    assert (44%N ∉ ws ++ url ++ tail) as Hno.
    { rewrite !elem_of_app. intros [Hin|[Hin|Hin]].
      - rewrite Forall_forall in Hws. by specialize (Hws _ Hin).
      - rewrite Forall_forall in Hurl. by destruct (Hurl _ Hin).
      - destruct Htail as [Hsp|(d & -> & Hd)].
        + rewrite Forall_forall in Hsp. by specialize (Hsp _ Hin).
        + apply elem_of_cons in Hin as [?|?]; [done | by apply Hd]. }
    rewrite (lastEntry_single _ Hno), trim_candidate; [|done|done|].
    2: { eapply Forall_impl; [exact Hurl|]. by intros c [? _]. }
    unfold split. apply splitBy_head.
    + eapply Forall_impl; [exact Hurl|]. intros c [Hs _].
      apply N.eqb_neq. intros <-. discriminate Hs.
    + destruct Htail as [Hsp|(d & -> & _)].
      * left. unfold trimEnd.
        rewrite <- (app_nil_r (reverse tail)), dropWhile_all; [done|].
        by apply Forall_reverse.
      * destruct (trimEnd_prefix (32%N :: d)) as [q Hq].
        destruct (trimEnd (32%N :: d)) as [|c t']; [by left|].
        right. exists c, t'. split; [done|]. injection Hq as <- _. reflexivity.
Qed.

Lemma source_set_entry_shape_shop :
  lastEntry (lit "https://shop.example/s.jpg 1x, https://shop.example/l.jpg 2x")
  = lit "https://shop.example/l.jpg".
Proof.
  destruct source_set_entry_shape as (_ & Hlast & Hurl).
  change (lit "https://shop.example/s.jpg 1x, https://shop.example/l.jpg 2x")
    with (lit "https://shop.example/s.jpg 1x" ++ 44%N :: lit " https://shop.example/l.jpg 2x").
  rewrite Hlast.
  - apply (Hurl (lit " ") (lit "https://shop.example/l.jpg") (lit " 2x")).
    + by repeat constructor.
    + discriminate.
    + vm_compute. repeat (constructor; [split; [reflexivity | discriminate]|]). constructor.
    + right. exists (lit "2x"). split; [reflexivity|].
      vm_compute. intros H.
      repeat (apply elem_of_cons in H as [H|H]; [discriminate H|]).
      by apply elem_of_nil in H.
  - vm_compute. intros H.
    repeat (apply elem_of_cons in H as [H|H]; [discriminate H|]).
    by apply elem_of_nil in H.
Defined.

(** The condition on the separator is needed: [split(' ')] cuts at
    U+0020 only, so a descriptor that follows the URL after a tab stays
    attached to it. *)
Example descriptor_after_tab_stays :
  lastEntry (lit "a.jpg" ++ [9%N] ++ lit "2x") = lit "a.jpg" ++ [9%N] ++ lit "2x".
Proof. vm_compute; reflexivity. Qed.

(** ** The climb and the claimed set *)







(** X14 (the image resolver).  Among the [img] descendants of the
    container, in document order, the resolver returns exactly the first
    one that passes the image test, and nothing exactly when none
    does. *)
Theorem image_is_first_product_image (root : Element) (container : NodeRef) :
  let images := querySelectorAll root container imgSelectors in
  (∀ img, findImage root container = Some img ↔
          ∃ earlier later,
            images = earlier ++ img :: later
            ∧ isProductImage img.2 = true
            ∧ Forall (λ x, isProductImage x.2 = false) earlier)
  ∧ (findImage root container = None ↔
     Forall (λ x, isProductImage x.2 = false) images).
Proof.
  intros images. unfold findImage. fold images. clearbody images.
  split.
  - intros img. induction images as [|x rest IH]; simpl.
    + split; [done|]. intros (earlier & later & Heq & _). by destruct earlier.
    + destruct (isProductImage x.2) eqn:Hx.
      * split.
        -- intros [= ->]. exists [], rest. by repeat split.
        -- intros (earlier & later & Heq & Hok & Hall).
           destruct earlier as [|y earlier]; [by injection Heq as ->|].
           injection Heq as -> _. apply Forall_inv in Hall. simpl in Hall. congruence.
      * rewrite IH. split.
        -- intros (earlier & later & -> & Hok & Hall).
           exists (x :: earlier), later. repeat split; [done | by constructor].
        -- intros (earlier & later & Heq & Hok & Hall).
           destruct earlier as [|y earlier]; [injection Heq as -> _; congruence|].
           injection Heq as -> ->. exists earlier, later.
           repeat split; [done | by eapply Forall_inv_tail].
  - induction images as [|x rest IH]; simpl; [by split|].
    destruct (isProductImage x.2) eqn:Hx.
    + split; [done|]. intros Hall%Forall_inv. simpl in Hall. congruence.
    + rewrite IH. split; [by constructor | by apply Forall_inv_tail].
Qed.

Lemma image_is_first_product_image_shop :
  isProductImage (data mousePicture) = true.
Proof.
  destruct (image_is_first_product_image shop mouseCardRef) as [Hsome _].
  destruct (proj1 (Hsome (mousePictureRef, data mousePicture)))
    as (earlier & later & _ & Hok & _); [vm_compute; reflexivity | exact Hok].
Defined.

(** ** The pass on a page that is not all HTML: facts *)

Import StrictSamples.

Lemma filterOrThrow_total {A} (f : A → Strict.Thrown + bool) (g : A → bool) (l : list A) :
  Forall (λ x, f x = inr (g x)) l →
  Strict.filterOrThrow f l = inr (List.filter g l).
Proof.
  induction 1 as [|x l Hx _ IH]; simpl; [done|]. rewrite Hx, IH. by destruct (g x).
Qed.

Lemma filterOrThrow_throws {A} (f : A → Strict.Thrown + bool) (l1 l2 : list A) (x : A) e :
  Forall (λ y, ∃ b, f y = inr b) l1 → f x = inl e →
  Strict.filterOrThrow f (l1 ++ x :: l2) = inl e.
Proof.
  intros Hl1 Hx. induction Hl1 as [|y l1 [b Hy] _ IH]; simpl.
  - by rewrite Hx.
  - by rewrite Hy, IH.
Qed.

Section AllHtml.

Variable page : Strict.Page.
Hypothesis all_html : Strict.foreign page = ∅.

Lemma isForeign_false (ref : NodeRef) : Strict.isForeign page ref = false.
Proof. unfold Strict.isForeign. rewrite all_html. by apply bool_decide_eq_false_2. Qed.

Lemma strict_scanTitles (pe : NodeRef) (titles : list (NodeRef * ElemData)) :
  Strict.scanTitles page pe titles = inr (scanTitles pe titles).
Proof.
  induction titles as [|el rest IH]; simpl; [done|].
  rewrite isForeign_false. by destruct (isValidTitle pe el).
Qed.

Lemma strict_findImage (ref : NodeRef) :
  Strict.findImage page ref = findImage (Strict.tree page) ref.
Proof.
  unfold Strict.findImage, findImage.
  induction (querySelectorAll (Strict.tree page) ref imgSelectors) as [|x l IH]; simpl; [done|].
  unfold Strict.isProductImage at 1. rewrite isForeign_false. simpl.
  by destruct (isProductImage x.2).
Qed.

Lemma strict_climb (claimed : gset NodeRef) (pe : NodeRef) (steps : nat) (cur : NodeRef) :
  Strict.climb page claimed pe steps cur = inr (climb (Strict.tree page) claimed pe steps cur).
Proof.
  revert cur. induction steps as [|steps IH]; intros cur; [done|].
  cbn [Strict.climb climb]. destruct (parentElement cur) as [parent|]; [|done].
  destruct (get (Strict.tree page) parent) as [e|]; [|done].
  case_bool_decide; [apply IH|].
  unfold Strict.outOfBounds. rewrite isForeign_false. cbn [negb andb].
  destruct (outOfBounds (data e)); [apply IH|].
  rewrite strict_findImage. destruct (findImage (Strict.tree page) parent); [|apply IH].
  unfold Strict.findTitle, findTitle. rewrite strict_scanTitles.
  destruct (scanTitles pe _); [done | apply IH].
Qed.

Lemma strict_runCandidates (st : PassState) (cs : list (NodeRef * ElemData)) :
  Strict.runCandidates page st cs = inr (runCandidates (Strict.tree page) st cs).
Proof.
  revert st. induction cs as [|pe cs IH]; intros st; [done|].
  cbn [Strict.runCandidates runCandidates fold_left].
  unfold Strict.processPrice. rewrite strict_climb.
  unfold runCandidates in IH. unfold processPrice at 2.
  destruct (climb (Strict.tree page) (processedContainers st) pe.1 CLIMB_LIMIT pe.1);
    apply IH.
Qed.

Lemma strict_potentialPriceElements :
  Strict.potentialPriceElements page = inr (potentialPriceElements (Strict.tree page)).
Proof.
  unfold Strict.potentialPriceElements, potentialPriceElements.
  apply filterOrThrow_total, Forall_forall. intros el _.
  unfold Strict.isPotentialPrice. by rewrite isForeign_false.
Qed.

End AllHtml.

Lemma filterOrThrow_foreign {A} (f : A → Strict.Thrown + bool) (l : list A) (x : A) :
  x ∈ l → f x = inl Strict.TypeError →
  Strict.filterOrThrow f l = inl Strict.TypeError.
Proof.
  induction l as [|y l IH]; intros Hin Hx; [by apply elem_of_nil in Hin|].
  simpl. destruct (f y) as [[]|keep] eqn:Hy; [done|].
  apply elem_of_cons in Hin as [->|Hin]; [congruence|].
  by rewrite IH.
Qed.

(** C9 (empty input): the code breaks the claim.  The injected function
    lets a [TypeError] escape, instead of returning an array and showing
    a notification, whenever the document has no head, and whenever the
    scan selector matches an element that is not an HTML element (an SVG
    link, say): for such an element the visibility guard compares
    [undefined] with [null] and [0] and lets it through to
    [el.innerText.trim()].  Neither depends on there being a price on
    the page. *)
Theorem pass_throws_before_reporting (page : Strict.Page) :
  (Strict.documentHead page = None → Strict.detect page = inl Strict.TypeError)
  ∧ (∀ el, el ∈ documentQuerySelectorAll (Strict.tree page) priceSelectors →
       Strict.isForeign page el.1 = true →
       Strict.isPotentialPrice page el = inl Strict.TypeError
       ∧ Strict.potentialPriceElements page = inl Strict.TypeError
       ∧ Strict.detect page = inl Strict.TypeError).
Proof.
  split.
  - intros Hhead. unfold Strict.detect, Strict.injectStyles. by rewrite Hhead.
  - intros el Hel Hforeign.
    assert (Strict.isPotentialPrice page el = inl Strict.TypeError) as Hthrow.
    { unfold Strict.isPotentialPrice. by rewrite Hforeign. }
    assert (Strict.potentialPriceElements page = inl Strict.TypeError) as Hscan.
    { unfold Strict.potentialPriceElements. by eapply filterOrThrow_foreign. }
    split; [done|]. split; [done|].
    unfold Strict.detect. rewrite Hscan.
    by destruct (Strict.injectStyles page) as [[]|].
Qed.

(** The failing inputs: a page without any price whose only odd element
    is a link inside an inline SVG picture, and an SVG picture opened in
    the tab.  No HTML element of either passes the candidate filter, and
    on both the function throws; without the SVG picture the first page
    is handled as the claim says. *)
Lemma pass_throws_before_reporting_svg :
  List.filter (Detector.isPotentialPrice (Strict.tree svgLinkPage))
    (Strict.scannedHtml svgLinkPage) = []
  ∧ Strict.injectStyles svgLinkPage = inr tt
  ∧ Strict.detect svgLinkPage = inl Strict.TypeError
  ∧ Strict.scannedHtml svgDocument = []
  ∧ Strict.detect svgDocument = inl Strict.TypeError
  ∧ Strict.detect blogDocument = inr noProducts.
Proof.
  split; [vm_compute; reflexivity|]. split; [vm_compute; reflexivity|]. split.
  { destruct (pass_throws_before_reporting svgLinkPage) as [_ Hforeign].
    apply (Hforeign ([0; 2; 1]%nat, data (svgNode "a" [("href", "/about")]
                                           [svgNode "text" [] []]))).
    - apply (list_elem_of_lookup_2 _ 1%nat). vm_compute; reflexivity.
    - vm_compute; reflexivity. }
  split; [vm_compute; reflexivity|]. split.
  { destruct (pass_throws_before_reporting svgDocument) as [Hhead _].
    apply Hhead. vm_compute; reflexivity. }
  vm_compute; reflexivity.
Defined.

(** X15 (empty input, where the pass gets through).  On a document with
    a head, and with a body or a notification element left by an earlier
    pass, in which every element the scan selector matches is an HTML
    element and none passes the candidate filter, the pass throws
    nothing, returns the empty array and shows "No products detected on
    this page."; the popup, given that array, shows "No products were
    detected." and starts no download. *)
Theorem empty_pass_gets_through (page : Strict.Page) :
  is_Some (Strict.documentHead page) →
  is_Some (Strict.getElementById page "product-detector-notification")
    ∨ is_Some (Strict.documentBody page) →
  Forall (λ el, Strict.isForeign page el.1 = false
               ∧ Detector.isPotentialPrice (Strict.tree page) el = false)
    (documentQuerySelectorAll (Strict.tree page) priceSelectors) →
  Strict.detect page = inr noProducts
  ∧ ∀ lastError,
      Popup.onInjection (inr [ {| Popup.result := Some (returned noProducts) |} ]) lastError
      = {| Popup.statusMessage := lit "No products were detected.";
           Popup.download := None |}.
Proof.
  intros [h Hhead] Hnote Hscan. split; [|done].
  assert (Strict.potentialPriceElements page = inr []) as Hcands.
  { unfold Strict.potentialPriceElements.
    induction Hscan as [|el l [Hhtml Hrej] _ IH]; [done|].
    cbn [Strict.filterOrThrow]. unfold Strict.isPotentialPrice at 1.
    by rewrite Hhtml, Hrej, IH. }
  unfold Strict.detect, Strict.injectStyles, Strict.displayPageNotification.
  rewrite Hhead, Hcands. cbn [Strict.runCandidates].
  destruct Hnote as [[n ->]|[b Hbody]]; [done|].
  rewrite Hbody. by destruct (Strict.getElementById page _).
Qed.

Lemma empty_pass_gets_through_blog :
  Strict.detect blogDocument = inr noProducts.
Proof.
  apply (empty_pass_gets_through blogDocument).
  - by eexists.
  - right. by eexists.
  - vm_compute. repeat constructor.
Defined.

(** X16 (pages of HTML elements).  On a document all of whose elements
    are HTML elements, with a head, and with a body or a notification
    element left by an earlier pass, the injected function throws
    nothing, and what it returns, claims and notifies is what [detect]
    computes from the element tree. *)
Theorem html_pages_never_throw (page : Strict.Page) :
  Strict.foreign page = ∅ →
  is_Some (Strict.documentHead page) →
  is_Some (Strict.getElementById page "product-detector-notification")
    ∨ is_Some (Strict.documentBody page) →
  Strict.detect page = inr (detect (Strict.tree page)).
Proof.
  intros Hhtml [h Hhead] Hnote.
  unfold Strict.detect, Strict.injectStyles, Strict.displayPageNotification, detect.
  rewrite Hhead, (strict_potentialPriceElements page Hhtml),
    (strict_runCandidates page Hhtml).
  destruct Hnote as [[n ->]|[b Hbody]]; [done|].
  rewrite Hbody. by destruct (Strict.getElementById page _).
Qed.

Lemma html_pages_never_throw_shop :
  Strict.detect shopDocument = inr (detect (Strict.tree shopDocument)).
Proof.
  apply html_pages_never_throw; [reflexivity | by eexists | right; by eexists].
Defined.
